(** * Node cluster manager of Lavalink.py: [lavalink/NodeManager.py]

    A shallow embedding of the region catalogue ([Regions]), the relay node
    ([LavalinkNode]) and the cluster registry ([NodeManager]), followed by the
    properties of the registry: region validation, node selection, routing
    table maintenance, failover and hook dispatch.

    Python objects that are shared by reference (the nodes, which sit in the
    [nodes]/[offline_nodes] lists and in the routing table at the same time)
    live in a heap and are named by their address; Python integers are [Z];
    a raised exception is the [Raise] case of [result]. *)

From Stdlib Require Import ZArith List String Bool Lia.
From stdpp Require Import base option list gmap strings pretty.
Import ListNotations.

Local Open Scope string_scope.
Local Open Scope list_scope.

(** ** Exceptions and results *)

(** The two exception classes of the module; the built-in [IndexError],
    [KeyError] and [AttributeError] that a list subscript, [dict.pop] and an
    attribute access raise; [Exception msg] for a failure coming from user
    code or from a collaborator.  All of these derive from Python's
    [Exception].  [BaseException msg] stands for an exception that derives
    from [BaseException] only ([KeyboardInterrupt], [SystemExit],
    [GeneratorExit]), which an [except Exception] clause does not take. *)
Inductive exn : Type :=
| RegionNotFound (msg : string)
| NoNodesAvailable
| IndexError
| KeyError (key : Z)
| AttributeError (msg : string)
| Exception (msg : string)
| BaseException (msg : string).

Inductive result (A : Type) : Type :=
| Ok (a : A)
| Raise (e : exn).

Arguments Ok {A} a.
Arguments Raise {A} e.

(** [isinstance(e, Exception)] *)
Definition is_Exception (e : exn) : bool :=
  match e with
  | BaseException _ => false
  | _ => true
  end.

(** [str(e)]; the text of a [KeyError] is the [repr] of the key, here an
    integer. *)
Definition exn_str (e : exn) : string :=
  match e with
  | RegionNotFound msg => msg
  | NoNodesAvailable => ""
  | IndexError => "list index out of range"
  | KeyError key => pretty key
  | AttributeError msg => msg
  | Exception msg => msg
  | BaseException msg => msg
  end.

(** ** Python lists *)

(** [l[i]] for a Python integer [i]: a negative subscript counts from the
    end, and a subscript outside [-len(l), len(l))] raises [IndexError]. *)
Definition py_getitem {A : Type} (l : list A) (i : Z) : result A :=
  let n := Z.of_nat (length l) in
  let j := if (i <? 0)%Z then (i + n)%Z else i in
  if ((0 <=? j)%Z && (j <? n)%Z)%bool then
    match l !! Z.to_nat j with
    | Some x => Ok x
    | None => Raise IndexError
    end
  else Raise IndexError.

(** [l.index(x)]: position of the first element equal to [x]. *)
Definition py_index `{EqDecision A} (l : list A) (x : A) : option nat :=
  fst <$> list_find (λ y, y = x) l.

(** [l.pop(i)] for an in-range position: the element and the remaining list. *)
Definition py_pop {A : Type} (l : list A) (i : nat) : option (A * list A) :=
  match l !! i with
  | Some x => Some (x, delete i l)
  | None => None
  end.

(** [l.remove(x)]: drops the first element equal to [x]. *)
Fixpoint py_remove `{EqDecision A} (x : A) (l : list A) : list A :=
  match l with
  | [] => []
  | y :: l' => if decide (y = x) then l' else y :: py_remove x l'
  end.

(** ** Region catalogue *)

Definition DISCORD_REGIONS : list string :=
  ["amsterdam"; "brazil"; "eu-central"; "eu-west"; "frankfurt"; "hongkong";
   "japan"; "london"; "russia"; "singapore"; "southafrica"; "sydney";
   "us-central"; "us-east"; "us-south"; "us-west";
   "vip-amsterdam"; "vip-us-east"; "vip-us-west"].

Module Regions.

Record t : Type := { regions : list string }.

(** The validation loop of the constructor:
    [for r in self.regions: if r not in DISCORD_REGIONS: raise ...]. *)
Fixpoint validate (rs : list string) : result unit :=
  match rs with
  | [] => Ok tt
  | r :: rs' =>
      if bool_decide (r ∈ DISCORD_REGIONS) then validate rs'
      else Raise (RegionNotFound ("Invalid region: " +:+ r))
  end.

(** [Regions(region_list)].  [region_list or DISCORD_REGIONS] takes the
    catalogue both for [None] and for the empty list. *)
Definition __init__ (region_list : option (list string)) : result t :=
  let rs :=
    match region_list with
    | Some (r :: rs') => r :: rs'
    | Some [] | None => DISCORD_REGIONS
    end in
  match validate rs with
  | Ok _ => Ok {| regions := rs |}
  | Raise e => Raise e
  end.

(** [for r in self.regions: yield r] *)
Definition __iter__ (self : t) : list string := regions self.

Definition all : result t := __init__ None.
Definition eu : result t :=
  __init__ (Some ["amsterdam"; "eu-central"; "eu-west"; "frankfurt";
                  "london"; "russia"; "vip-amsterdam"]).
Definition us : result t :=
  __init__ (Some ["us-central"; "us-east"; "us-south"; "us-west";
                  "vip-us-east"; "vip-us-west"]).
Definition america : result t :=
  __init__ (Some ["us-central"; "us-east"; "us-south"; "us-west";
                  "vip-us-east"; "vip-us-west"; "brazil"]).
Definition africa : result t := __init__ (Some ["southafrica"]).
Definition asia : result t :=
  __init__ (Some ["hongkong"; "japan"; "singapore"]).
Definition oceania : result t := __init__ (Some ["sydney"]).
Definition half_one : result t :=
  __init__ (Some ["amsterdam"; "brazil"; "eu-central"; "eu-west";
                  "frankfurt"; "london"; "southafrica"; "us-east";
                  "vip-amsterdam"; "vip-us-east"]).
Definition half_two : result t :=
  __init__ (Some ["hongkong"; "japan"; "russia"; "singapore"; "sydney";
                  "us-central"; "us-south"; "us-west"; "vip-us-west"]).
Definition third_one : result t :=
  __init__ (Some ["amsterdam"; "eu-central"; "eu-west"; "frankfurt";
                  "london"; "russia"; "southafrica"; "vip-amsterdam"]).
Definition third_two : result t :=
  __init__ (Some ["hongkong"; "japan"; "singapore"; "sydney"]).
Definition third_three : result t :=
  __init__ (Some ["us-central"; "us-east"; "us-south"; "us-west";
                  "vip-us-east"; "vip-us-west"]).

End Regions.

(** ** Python dictionaries that are iterated

    A [dict] keeps its keys in insertion order and [list(d)] walks them in
    that order, so a dictionary whose iteration order is observable is an
    association list without repeated keys. *)
Module PyDict.
Section dict.
Context {K : Type} `{EqDecision K} {V : Type}.

(** [d.get(k)] *)
Fixpoint get (d : list (K * V)) (k : K) : option V :=
  match d with
  | [] => None
  | (k', v) :: d' => if decide (k' = k) then Some v else get d' k
  end.

(** [d.pop(k)]: the value and the dictionary without the key; [None]
    stands for the [KeyError] of an absent key. *)
Fixpoint pop (d : list (K * V)) (k : K) : option (V * list (K * V)) :=
  match d with
  | [] => None
  | (k', v) :: d' =>
      if decide (k' = k) then Some (v, d')
      else match pop d' k with
           | Some (x, d'') => Some (x, (k', v) :: d'')
           | None => None
           end
  end.

(** [d.update({k: v})]: an existing key keeps its place, a new key goes
    to the end. *)
Fixpoint update (d : list (K * V)) (k : K) (v : V) : list (K * V) :=
  match d with
  | [] => [(k, v)]
  | (k', v') :: d' =>
      if decide (k' = k) then (k, v) :: d' else (k', v') :: update d' k v
  end.

(** [list(d)] *)
Definition keys (d : list (K * V)) : list K := d.*1.
End dict.
End PyDict.

(** ** Sessions, nodes, events *)

(** Address of a [LavalinkNode] object.  [node in self.nodes] compares
    objects by identity, that is, by address. *)
Abbreviation node_ref := nat.

(** Identity of a registered hook (a Python callable). *)
Abbreviation hook_ref := nat.

(** A loaded audio track, as the relay names it. *)
Definition Track : Type := string.

(** Modelled from the spec: the per-guild session object.  Its class lives in
    [lavalink/PlayerManager.py], which is missing; the record has the
    attributes that [manage_failover] reads and writes: the owning node, the
    voice channel, the playing flag, the track and position that failover
    captures ([previous] and [_prev_position]), and the play queue. *)
Module Player.
Record t : Type := {
  node : node_ref;
  channel_id : option Z;
  is_playing : bool;
  previous : option Track;
  _prev_position : Z;
  queue : list (option Track)
}.

(** [self.node = n] *)
Definition set_node (n : node_ref) (p : t) : t :=
  {| node := n; channel_id := channel_id p; is_playing := is_playing p;
     previous := previous p; _prev_position := _prev_position p;
     queue := queue p |}.

(** [self.queue.insert(0, track)] *)
Definition queue_insert_front (track : option Track) (p : t) : t :=
  {| node := node p; channel_id := channel_id p; is_playing := is_playing p;
     previous := previous p; _prev_position := _prev_position p;
     queue := track :: queue p |}.

(** A session that has just been created for a node. *)
Definition fresh (n : node_ref) : t :=
  {| node := n; channel_id := None; is_playing := false;
     previous := None; _prev_position := 0%Z; queue := [] |}.
End Player.

Module LavalinkNode.
Record t : Type := {
  regions : Regions.t;
  host : string;
  password : string;
  rest_port : Z;
  ws_port : Z;
  ws_retry : Z;
  shard_count : Z;
  server_version : Z;
  ready : bool;                       (* asyncio.Event: set / cleared *)
  _players : list (Z * Player.t)      (* self.players._players *)
}.

(** [LavalinkNode(manager, host, password, regions, rest_port, ws_port,
    ws_retry, shard_count)] *)
Definition __init__ (host password : string) (regions : Regions.t)
    (rest_port ws_port ws_retry shard_count : Z) : t :=
  {| regions := regions; host := host; password := password;
     rest_port := rest_port; ws_port := ws_port; ws_retry := ws_retry;
     shard_count := shard_count; server_version := 2%Z;
     ready := false; _players := [] |}.

Definition set_ready (b : bool) (nd : t) : t :=
  {| regions := regions nd; host := host nd; password := password nd;
     rest_port := rest_port nd; ws_port := ws_port nd;
     ws_retry := ws_retry nd; shard_count := shard_count nd;
     server_version := server_version nd;
     ready := b; _players := _players nd |}.

Definition set_players (ps : list (Z * Player.t)) (nd : t) : t :=
  {| regions := regions nd; host := host nd; password := password nd;
     rest_port := rest_port nd; ws_port := ws_port nd;
     ws_retry := ws_retry nd; shard_count := shard_count nd;
     server_version := server_version nd;
     ready := ready nd; _players := ps |}.
End LavalinkNode.

(** [NodeReadyEvent(node)] and [NodeDisabledEvent(node)] of [lavalink/Events.py]. *)
Inductive NodeEvent : Type :=
| NodeReadyEvent (node : node_ref)
| NodeDisabledEvent (node : node_ref).

(** Modelled from the spec: the calls that failover makes on its
    collaborators.  [connect], [play] and [seek] are methods of the session
    object, whose class is missing, and are recorded with the receiver as it
    stands when the call is made; [_get_websocket] is the host framework's
    lookup of the gateway connection of a guild and [voice_state] its call
    that tears down the voice connection of the guild. *)
Inductive Call : Type :=
| _get_websocket (guild_id : Z)
| voice_state (guild_id : Z) (channel_id : option Z)
| connect (self : Player.t) (channel_id : option Z)
| play (self : Player.t)
| seek (self : Player.t) (position : Z).

(** A guild of the host framework, as far as [get_by_region] looks at it. *)
Record Guild : Type := { id : Z; region : string }.

(** ** The registry *)

Module NodeManager.
Record t : Type := {
  default_node_index : Z;
  round_robin : bool;
  _rr_pos : Z;
  nodes : list node_ref;
  offline_nodes : list node_ref;
  nodes_by_region : gmap string node_ref;
  _hooks : list hook_ref;
  ready : bool
}.

(** [NodeManager(lavalink, default_node, round_robin, player)] *)
Definition __init__ (default_node : Z) (round_robin : bool) : t :=
  {| default_node_index := default_node; round_robin := round_robin;
     _rr_pos := 0%Z; nodes := []; offline_nodes := [];
     nodes_by_region := ∅; _hooks := []; ready := false |}.

Definition set_rr_pos (v : Z) (m : t) : t :=
  {| default_node_index := default_node_index m;
     round_robin := round_robin m; _rr_pos := v; nodes := nodes m;
     offline_nodes := offline_nodes m;
     nodes_by_region := nodes_by_region m; _hooks := _hooks m;
     ready := ready m |}.

Definition set_nodes (online offline : list node_ref) (m : t) : t :=
  {| default_node_index := default_node_index m;
     round_robin := round_robin m; _rr_pos := _rr_pos m; nodes := online;
     offline_nodes := offline;
     nodes_by_region := nodes_by_region m; _hooks := _hooks m;
     ready := ready m |}.

Definition set_nodes_by_region (tbl : gmap string node_ref) (m : t) : t :=
  {| default_node_index := default_node_index m;
     round_robin := round_robin m; _rr_pos := _rr_pos m; nodes := nodes m;
     offline_nodes := offline_nodes m;
     nodes_by_region := tbl; _hooks := _hooks m; ready := ready m |}.

Definition set_hooks (hs : list hook_ref) (m : t) : t :=
  {| default_node_index := default_node_index m;
     round_robin := round_robin m; _rr_pos := _rr_pos m; nodes := nodes m;
     offline_nodes := offline_nodes m;
     nodes_by_region := nodes_by_region m; _hooks := hs;
     ready := ready m |}.

Definition set_ready (b : bool) (m : t) : t :=
  {| default_node_index := default_node_index m;
     round_robin := round_robin m; _rr_pos := _rr_pos m; nodes := nodes m;
     offline_nodes := offline_nodes m;
     nodes_by_region := nodes_by_region m; _hooks := _hooks m;
     ready := b |}.
End NodeManager.

(** The registry together with the objects its methods reach: the node
    objects, the event loop's queue of scheduled dispatches
    ([loop.create_task]) and the calls made on the collaborators. *)
Record World : Type := {
  manager : NodeManager.t;
  heap : list LavalinkNode.t;
  loop_tasks : list NodeEvent;
  calls : list Call
}.

Definition set_manager (m : NodeManager.t) (w : World) : World :=
  {| manager := m; heap := heap w; loop_tasks := loop_tasks w;
     calls := calls w |}.

Definition set_heap (h : list LavalinkNode.t) (w : World) : World :=
  {| manager := manager w; heap := h; loop_tasks := loop_tasks w;
     calls := calls w |}.

(** [self._lavalink.loop.create_task(self._dispatch_node_event(event))] *)
Definition create_task (event : NodeEvent) (w : World) : World :=
  {| manager := manager w; heap := heap w;
     loop_tasks := loop_tasks w ++ [event]; calls := calls w |}.

Definition call (c : Call) (w : World) : World :=
  {| manager := manager w; heap := heap w; loop_tasks := loop_tasks w;
     calls := calls w ++ [c] |}.

(** Attribute access through an address.  An address outside the heap names
    no object: it has no regions and no sessions, and writing through it
    changes nothing.  Every address that [add] hands out is inside the heap. *)
Definition node_regions (w : World) (node : node_ref) : list string :=
  match heap w !! node with
  | Some nd => Regions.__iter__ (LavalinkNode.regions nd)
  | None => []
  end.

Definition node_players (w : World) (node : node_ref) : list (Z * Player.t) :=
  match heap w !! node with
  | Some nd => LavalinkNode._players nd
  | None => []
  end.

Definition node_ready (w : World) (node : node_ref) : bool :=
  match heap w !! node with
  | Some nd => LavalinkNode.ready nd
  | None => false
  end.

Definition set_node_ready (node : node_ref) (b : bool) (w : World) : World :=
  set_heap (alter (LavalinkNode.set_ready b) node (heap w)) w.

Definition set_node_players (node : node_ref) (ps : list (Z * Player.t))
    (w : World) : World :=
  set_heap (alter (LavalinkNode.set_players ps) node (heap w)) w.

(** [NodeManager(...)] in a process that has no node yet. *)
Definition init (default_node : Z) (round_robin : bool) : World :=
  {| manager := NodeManager.__init__ default_node round_robin;
     heap := []; loop_tasks := []; calls := [] |}.

Definition update_manager (f : NodeManager.t → NodeManager.t) (w : World) : World :=
  set_manager (f (manager w)) w.

(** ** [NodeManager]: hooks *)

Definition register_node_hook (func : hook_ref) (w : World) : World :=
  if bool_decide (func ∉ NodeManager._hooks (manager w)) then
    update_manager (λ m, NodeManager.set_hooks (NodeManager._hooks m ++ [func]) m) w
  else w.

Definition unregister_node_hook (func : hook_ref) (w : World) : World :=
  if bool_decide (func ∈ NodeManager._hooks (manager w)) then
    update_manager (λ m, NodeManager.set_hooks (py_remove func (NodeManager._hooks m)) m) w
  else w.

Section Dispatch.
(** The hooks are callables of the user.  What a call does is given by the
    environment [Env] it acts on; through the manager a call can also
    register and unregister hooks, so it is given the list [_hooks] as it
    stands and gives back the list as it leaves it.  A call returns or
    raises.  Reading [hook.__name__] gives the name, or raises
    [AttributeError] for a callable that has no such attribute (a
    [functools.partial], an instance with [__call__]). *)
Context {Env : Type}.
Variable hook_name : hook_ref → result string.         (* hook.__name__ *)
Variable iscoroutinefunction : hook_ref → bool.        (* asyncio.iscoroutinefunction(hook) *)
Variable hook_call :
  hook_ref → NodeEvent → Env * list hook_ref → result unit * (Env * list hook_ref).

(** The body of the [try]: [await hook(event)] for a coroutine function,
    [hook(event)] otherwise; either way the call has finished before the
    next statement runs. *)
Definition invoke_hook (hook : hook_ref) (event : NodeEvent)
    (st : Env * list hook_ref) : result unit * (Env * list hook_ref) :=
  if iscoroutinefunction hook then hook_call hook event st
  else hook_call hook event st.

(** The text of the warning, for the name of the hook and the exception. *)
Definition hook_warning (name : string) (e : exn) : string :=
  "Encountered exception while dispatching an event to hook `"
    +:+ name +:+ "` (" +:+ exn_str e +:+ ")".

(** The clause [except Exception as e: log.warning(... hook.__name__, str(e))]:
    it does not take an exception that is no [Exception], and it raises
    itself when reading [hook.__name__] raises. *)
Definition except_Exception (hook : hook_ref) (e : exn) (log : list string)
    : result unit * list string :=
  if is_Exception e then
    match hook_name hook with
    | Ok name => (Ok tt, log ++ [hook_warning name e])
    | Raise e' => (Raise e', log)
    end
  else (Raise e, log).

(** [for hook in self._hooks: try: ... except Exception as e: ...].  The
    [for] statement walks the list object itself: it holds a position [i] and
    at every round reads [self._hooks[i]] from the list as the calls so far
    have left it, stopping when [i] is past its end.  Hooks that keep
    registering hooks make the loop run on; [fuel] bounds the number of
    rounds, and [None] is a loop that has not finished within it. *)
Fixpoint dispatch_loop (fuel i : nat) (event : NodeEvent)
    (st : Env * list hook_ref) (log : list string)
    : option (result unit * ((Env * list hook_ref) * list string)) :=
  match fuel with
  | O => None
  | S fuel' =>
      match st.2 !! i with
      | None => Some (Ok tt, (st, log))
      | Some hook =>
          match invoke_hook hook event st with
          | (Ok _, st') => dispatch_loop fuel' (S i) event st' log
          | (Raise e, st') =>
              match except_Exception hook e log with
              | (Ok _, log') => dispatch_loop fuel' (S i) event st' log'
              | (Raise e', log') => Some (Raise e', (st', log'))
              end
          end
      end
  end.

Definition _dispatch_node_event (fuel : nat) (self : NodeManager.t)
    (event : NodeEvent) (env : Env) (log : list string)
    : option (result unit * ((Env * list hook_ref) * list string)) :=
  dispatch_loop fuel 0 event (env, NodeManager._hooks self) log.

(** The environment after calling [hooks] one after the other while the
    list of hooks stays [registered], whatever each call returns or raises. *)
Definition hooks_effect (registered hooks : list hook_ref) (event : NodeEvent)
    (env : Env) : Env :=
  foldl (λ env hook, (hook_call hook event (env, registered)).2.1) env hooks.

(** The warnings owed to the hooks that raise, in the order of the hooks. *)
Fixpoint hooks_warnings (registered hooks : list hook_ref) (event : NodeEvent)
    (env : Env) : list string :=
  match hooks with
  | [] => []
  | hook :: hooks' =>
      match hook_call hook event (env, registered) with
      | (Ok _, st') => hooks_warnings registered hooks' event st'.1
      | (Raise e, st') =>
          match hook_name hook with
          | Ok name => [hook_warning name e]
          | Raise _ => []
          end ++ hooks_warnings registered hooks' event st'.1
      end
  end.

(** The hooks with a record of their invocations added to the environment. *)
Definition recorded (hook : hook_ref) (event : NodeEvent)
    (st : (Env * list (hook_ref * NodeEvent)) * list hook_ref)
    : result unit * ((Env * list (hook_ref * NodeEvent)) * list hook_ref) :=
  let r := hook_call hook event (st.1.1, st.2) in
  (r.1, ((r.2.1, st.1.2 ++ [(hook, event)]), r.2.2)).

(** Hooks that leave the list of hooks alone. *)
Definition keeps_hooks : Prop :=
  ∀ hook event env hooks, (hook_call hook event (env, hooks)).2.2 = hooks.

(** Hooks whose failures are instances of [Exception]. *)
Definition raises_Exception_only : Prop :=
  ∀ hook event st e, (hook_call hook event st).1 = Raise e → is_Exception e = true.
End Dispatch.

(** Four hooks: hook 0 raises on every call and has no [__name__] (a
    [functools.partial]); hook 1 counts its calls; hook 2 unregisters itself
    when it is called; every other hook raises on every call and is a
    function named "failing". *)
Definition example_hook_call (hook : hook_ref) (event : NodeEvent)
    (st : nat * list hook_ref) : result unit * (nat * list hook_ref) :=
  match hook with
  | 0 => (Raise (Exception "boom"), st)
  | 1 => (Ok tt, (S st.1, st.2))
  | 2 => (Ok tt, (st.1, py_remove 2 st.2))
  | _ => (Raise (Exception "boom"), st)
  end.

Definition example_hook_name (hook : hook_ref) : result string :=
  match hook with
  | 0 => Raise (AttributeError "'functools.partial' object has no attribute '__name__'")
  | 1 => Ok "counting"
  | 2 => Ok "leaving"
  | _ => Ok "failing"
  end.

(** Hooks that are named functions and leave the list of hooks alone: the
    counting hook at address 1, the hook "failing" at every other address. *)
Definition named_hook_call (hook : hook_ref) (event : NodeEvent)
    (st : nat * list hook_ref) : result unit * (nat * list hook_ref) :=
  if decide (hook = 1) then example_hook_call 1 event st
  else example_hook_call 3 event st.

Definition named_hook_name (hook : hook_ref) : result string :=
  if decide (hook = 1) then example_hook_name 1 else example_hook_name 3.

(** ** [NodeManager]: registration, promotion, demotion *)

(** [for region in regions: self.nodes_by_region.update({region: target})] *)
Definition route_regions (regions : list string) (target : node_ref)
    (tbl : gmap string node_ref) : gmap string node_ref :=
  foldl (λ tbl region, <[region := target]> tbl) tbl regions.

Definition add (regions : Regions.t) (host : string) (rest_port : Z)
    (password : string) (ws_retry ws_port shard_count : Z) (w : World) : World :=
  let node := length (heap w) in
  let w := set_heap (heap w ++ [LavalinkNode.__init__ host password regions
                                   rest_port ws_port ws_retry shard_count]) w in
  update_manager
    (λ m, NodeManager.set_nodes (NodeManager.nodes m)
            (NodeManager.offline_nodes m ++ [node]) m) w.

(** [index] and [pop] cannot fail after the membership test; their failure
    cases leave the state alone. *)
Definition on_node_ready (node : node_ref) (w : World) : World :=
  let m := manager w in
  if bool_decide (node ∉ NodeManager.offline_nodes m) then w
  else
    match py_index (NodeManager.offline_nodes m) node with
    | None => w
    | Some node_index =>
        match py_pop (NodeManager.offline_nodes m) node_index with
        | None => w
        | Some (popped, offline') =>
            let w := update_manager
                       (NodeManager.set_nodes (NodeManager.nodes m ++ [popped]) offline') w in
            let w := set_node_ready node true w in
            let w := update_manager (NodeManager.set_ready true) w in
            let w := update_manager
                       (λ m, NodeManager.set_nodes_by_region
                               (route_regions (node_regions w node) node
                                  (NodeManager.nodes_by_region m)) m) w in
            create_task (NodeReadyEvent node) w
        end
    end.

Definition on_node_disabled (node : node_ref) (w : World) : World :=
  let m := manager w in
  if bool_decide (node ∉ NodeManager.nodes m) then w
  else
    match py_index (NodeManager.nodes m) node with
    | None => w
    | Some node_index =>
        match py_pop (NodeManager.nodes m) node_index with
        | None => w
        | Some (popped, online') =>
            let w := update_manager
                       (NodeManager.set_nodes online'
                          (NodeManager.offline_nodes m ++ [popped])) w in
            let w := set_node_ready node false w in
            let w := match NodeManager.nodes (manager w) with
                     | [] => update_manager (NodeManager.set_ready false) w
                     | _ :: _ => w
                     end in
            match NodeManager.nodes (manager w) with
            | [] => w
            | default_node :: _ =>
                let w := update_manager
                           (λ m, NodeManager.set_nodes_by_region
                                   (route_regions (node_regions w node) default_node
                                      (NodeManager.nodes_by_region m)) m) w in
                create_task (NodeDisabledEvent node) w
            end
        end
    end.

(** [LavalinkNode.set_online] and [LavalinkNode.set_offline] *)
Definition set_online (self : node_ref) (w : World) : World :=
  on_node_ready self w.

Definition set_offline (self : node_ref) (w : World) : World :=
  on_node_disabled self w.

(** ** [NodeManager]: selection *)

Definition get_rest (self : NodeManager.t)
    : result (option node_ref) * NodeManager.t :=
  let nodes := NodeManager.nodes self in
  let len := Z.of_nat (length nodes) in
  match nodes with
  | [] => (Raise NoNodesAvailable, self)
  | _ :: _ =>
      let by_default :=
        if (NodeManager.default_node_index self <? len)%Z then
          match py_getitem nodes (NodeManager.default_node_index self) with
          | Ok n => Ok (Some n)
          | Raise e => Raise e
          end
        else Ok None in
      match by_default with
      | Raise e => (Raise e, self)
      | Ok node =>
          let first :=
            match node, NodeManager.round_robin self with
            | None, false =>
                match py_getitem nodes 0 with
                | Ok n => Ok (Some n)
                | Raise e => Raise e
                end
            | _, _ => Ok node
            end in
          match first with
          | Raise e => (Raise e, self)
          | Ok node =>
              if NodeManager.round_robin self then
                match py_getitem nodes
                        (Z.min (NodeManager._rr_pos self) (len - 1)) with
                | Raise e => (Raise e, self)
                | Ok n =>
                    let pos := (NodeManager._rr_pos self + 1)%Z in
                    let pos := if (pos >? len)%Z then 0%Z else pos in
                    (Ok (Some n), NodeManager.set_rr_pos pos self)
                end
              else (Ok node, self)
          end
      end
  end.

(** Modelled from the spec: [node.players.get(guild_id)] of the missing
    [lavalink/PlayerManager.py] fetches the node's session for the key and
    creates it when there is none. *)
Definition players_get (node : node_ref) (guild_id : Z) (w : World)
    : Player.t * World :=
  match PyDict.get (node_players w node) guild_id with
  | Some p => (p, w)
  | None =>
      let p := Player.fresh node in
      (p, set_node_players node (PyDict.update (node_players w node) guild_id p) w)
  end.

Definition get_by_region (guild : Guild) (w : World) : result Player.t * World :=
  let found :=
    match NodeManager.nodes_by_region (manager w) !! region guild with
    | Some node => Ok node
    | None => py_getitem (NodeManager.nodes (manager w)) 0
    end in
  match found with
  | Raise e => (Raise e, w)
  | Ok node => let '(p, w') := players_get node (id guild) w in (Ok p, w')
  end.

(** [for node in self.nodes: yield node] *)
Definition NodeManager_iter (self : NodeManager.t) : list node_ref :=
  NodeManager.nodes self.

(** ** [LavalinkNode.manage_failover] *)

(** A call on a collaborator is made and then returns or raises.  Which of
    the two is given by the environment: [outcome history c] is what the call
    [c] does when it is made after the calls of [history]. *)
Definition invoke (outcome : list Call → Call → result unit) (c : Call) (w : World)
    : result unit * World :=
  (outcome (calls w) c, call c w).

(** One round of the loop over the guild keys.  Nothing in the loop catches
    an exception: a call that raises ends the round where it stands, with the
    session already in the dictionary of [new_node]. *)
Definition failover_player (outcome : list Call → Call → result unit)
    (self new_node : node_ref) (g : Z) (w : World) : result unit * World :=
  match PyDict.pop (node_players w self) g with
  | None => (Raise (KeyError g), w)
  | Some (new_player, rest) =>
      let w := set_node_players self rest w in
      let new_player := Player.set_node new_node new_player in
      let is_playing := Player.is_playing new_player in
      let current_track := Player.previous new_player in
      let current_posit := Player._prev_position new_player in
      let w := set_node_players new_node
                 (PyDict.update (node_players w new_node) g new_player) w in
      match invoke outcome (_get_websocket g) w with
      | (Raise e, w) => (Raise e, w)
      | (Ok _, w) =>
      match invoke outcome (voice_state g None) w with
      | (Raise e, w) => (Raise e, w)
      | (Ok _, w) =>
          if is_playing then
            match invoke outcome (connect new_player (Player.channel_id new_player)) w with
            | (Raise e, w) => (Raise e, w)
            | (Ok _, w) =>
                (* the queue of the object that now sits in [new_node]'s dictionary *)
                let new_player := Player.queue_insert_front current_track new_player in
                let w := set_node_players new_node
                           (PyDict.update (node_players w new_node) g new_player) w in
                match invoke outcome (play new_player) w with
                | (Raise e, w) => (Raise e, w)
                | (Ok _, w) => invoke outcome (seek new_player current_posit) w
                end
            end
          else (Ok tt, w)
      end
      end
  end.

(** The loop; an exception of a round ends it and is the result. *)
Fixpoint failover_loop (outcome : list Call → Call → result unit)
    (self new_node : node_ref) (gs : list Z) (w : World) : result unit * World :=
  match gs with
  | [] => (Ok tt, w)
  | g :: gs' =>
      match failover_player outcome self new_node g w with
      | (Ok _, w') => failover_loop outcome self new_node gs' w'
      | (Raise e, w') => (Raise e, w')
      end
  end.

(** The coroutine, run from its first line to its return or to the exception
    that leaves it, the keys being the snapshot [list(self.players._players)]
    taken before the loop. *)
Definition manage_failover (outcome : list Call → Call → result unit)
    (self : node_ref) (w : World) : result unit * World :=
  match NodeManager.nodes (manager w) with
  | [] => (Ok tt, w)
  | new_node :: _ =>
      failover_loop outcome self new_node (PyDict.keys (node_players w self)) w
  end.

(** The session of guild [g] as one round of the failover loop leaves it in
    the dictionary of [new_node], and the calls that the round makes. *)
Definition migrated (new_node : node_ref) (p : Player.t) : Player.t :=
  let new_player := Player.set_node new_node p in
  if Player.is_playing p then
    Player.queue_insert_front (Player.previous p) new_player
  else new_player.

Definition migration_calls (new_node : node_ref) (g : Z) (p : Player.t) : list Call :=
  _get_websocket g :: voice_state g None ::
  if Player.is_playing p then
    [connect (Player.set_node new_node p) (Player.channel_id p);
     play (migrated new_node p);
     seek (migrated new_node p) (Player._prev_position p)]
  else [].


(** ** Runs of the registry *)

Inductive op : Type :=
| op_add (regions : Regions.t) (host : string) (rest_port : Z)
    (password : string) (ws_retry ws_port shard_count : Z)
| op_set_online (node : node_ref)
| op_set_offline (node : node_ref)
| op_get_rest
| op_get_by_region (guild : Guild)
| op_register_node_hook (func : hook_ref)
| op_unregister_node_hook (func : hook_ref)
| op_manage_failover (node : node_ref) (outcome : list Call → Call → result unit).

Definition step (o : op) (w : World) : World :=
  match o with
  | op_add regions host rest_port password ws_retry ws_port shard_count =>
      add regions host rest_port password ws_retry ws_port shard_count w
  | op_set_online node => set_online node w
  | op_set_offline node => set_offline node w
  | op_get_rest => set_manager (get_rest (manager w)).2 w
  | op_get_by_region guild => (get_by_region guild w).2
  | op_register_node_hook func => register_node_hook func w
  | op_unregister_node_hook func => unregister_node_hook func w
  | op_manage_failover node outcome => (manage_failover outcome node w).2
  end.

Definition run (ops : list op) (w : World) : World :=
  foldl (λ w o, step o w) w ops.

Inductive reachable : World → Prop :=
| reachable_init default_node round_robin :
    reachable (init default_node round_robin)
| reachable_step o w : reachable w → reachable (step o w).

(** [n] successive calls of [get_rest]; the run stops at the first exception. *)
Fixpoint get_rest_n (n : nat) (self : NodeManager.t)
    : result (list (option node_ref)) * NodeManager.t :=
  match n with
  | O => (Ok [], self)
  | S n' =>
      match get_rest self with
      | (Raise e, self') => (Raise e, self')
      | (Ok node, self') =>
          match get_rest_n n' self' with
          | (Raise e, self'') => (Raise e, self'')
          | (Ok nodes, self'') => (Ok (node :: nodes), self'')
          end
      end
  end.

(** ** Properties of a registry state *)

(** Every routing entry leads to an online node. *)
Definition routes_online (w : World) : Prop :=
  ∀ r n, NodeManager.nodes_by_region (manager w) !! r = Some n →
         n ∈ NodeManager.nodes (manager w).

(** Every routing entry leads to a node of the registry, online or offline. *)
Definition routes_registered (w : World) : Prop :=
  ∀ r n, NodeManager.nodes_by_region (manager w) !! r = Some n →
         n ∈ NodeManager.nodes (manager w) ∨
         n ∈ NodeManager.offline_nodes (manager w).

(** The cursor lies in [[0, len(nodes)]]. *)
Definition cursor_in_online (w : World) : Prop :=
  (0 ≤ NodeManager._rr_pos (manager w)
     ≤ Z.of_nat (length (NodeManager.nodes (manager w))))%Z.

(** The cursor lies in [[0, len(nodes) + len(offline_nodes)]]. *)
Definition cursor_in_registered (w : World) : Prop :=
  (0 ≤ NodeManager._rr_pos (manager w)
     ≤ Z.of_nat (length (NodeManager.nodes (manager w)))
       + Z.of_nat (length (NodeManager.offline_nodes (manager w))))%Z.

(** Demoting [node] repoints exactly the entries that led to it, to the
    first node that stays online, and leaves the other entries alone. *)
Definition repoints_routed (node : node_ref) (w : World) : Prop :=
  ∀ default_node rest,
    NodeManager.nodes (manager (on_node_disabled node w)) = default_node :: rest →
    ∀ r,
      (NodeManager.nodes_by_region (manager w) !! r = Some node →
       NodeManager.nodes_by_region (manager (on_node_disabled node w)) !! r
         = Some default_node) ∧
      (NodeManager.nodes_by_region (manager w) !! r ≠ Some node →
       NodeManager.nodes_by_region (manager (on_node_disabled node w)) !! r
         = NodeManager.nodes_by_region (manager w) !! r).

(** No node is listed twice in [nodes] and [offline_nodes] taken together,
    and every listed address names an object of the heap. *)
Definition registry_wf (w : World) : Prop :=
  NoDup (NodeManager.nodes (manager w) ++ NodeManager.offline_nodes (manager w)) ∧
  ∀ n, n ∈ NodeManager.nodes (manager w) ++ NodeManager.offline_nodes (manager w) →
       (n < length (heap w))%nat.

(** The part of the registry that only [add], [on_node_ready],
    [on_node_disabled] and [get_rest] can change. *)
Definition same_registry (m m' : NodeManager.t) : Prop :=
  NodeManager.nodes m' = NodeManager.nodes m ∧
  NodeManager.offline_nodes m' = NodeManager.offline_nodes m ∧
  NodeManager.nodes_by_region m' = NodeManager.nodes_by_region m ∧
  NodeManager._rr_pos m' = NodeManager._rr_pos m.

(** ** Example runs *)

(** [manager.add(Regions(regions))], the other arguments left to their
    defaults. *)
Definition example_add (regions : list string) : op :=
  op_add {| Regions.regions := regions |} "localhost" 2333 "" 10 80 1.

(** Two nodes, both online, round-robin enabled, default index 0. *)
Definition two_nodes_online : World :=
  run [example_add ["japan"]; example_add ["sydney"];
       op_set_online 0; op_set_online 1] (init 0 true).

(** The same cluster after two selections and the loss of the second node. *)
Definition two_selections_then_demote : World :=
  run [op_get_rest; op_get_rest; op_set_offline 1] two_nodes_online.

(** A single node that came online and went offline again. *)
Definition only_node_demoted : World :=
  run [example_add ["japan"]; op_set_online 0; op_set_offline 0] (init 0 true).

(** Three nodes with one region each, all online. *)
Definition three_nodes_online : World :=
  run [example_add ["japan"]; example_add ["sydney"]; example_add ["brazil"];
       op_set_online 0; op_set_online 1; op_set_online 2] (init 0 true).

(** ... after the loss of the second node, whose region falls to the first. *)
Definition three_nodes_second_demoted : World :=
  run [op_set_offline 1] three_nodes_online.

(** Two nodes serving the same region behind a third one that came online
    first. *)
Definition shared_region_online : World :=
  run [example_add ["japan"]; example_add ["japan"]; example_add ["sydney"];
       op_set_online 2; op_set_online 0; op_set_online 1] (init 0 true).

(** One node online in a registry configured with default index -2. *)
Definition one_node_default_minus_two : World :=
  run [example_add ["japan"]; op_set_online 0] (init (-2) true).

(** Two nodes online in a registry configured with default index -3. *)
Definition two_nodes_default_minus_three : World :=
  run [example_add ["japan"]; example_add ["sydney"];
       op_set_online 0; op_set_online 1] (init (-3) true).

(** Node 0 of the two-node cluster owns the session of guild 1, playing
    the track "T" at position 1500 in voice channel 7, and the idle session of
    guild 2. *)
Definition playing_session : Player.t :=
  {| Player.node := 0; Player.channel_id := Some 7%Z; Player.is_playing := true;
     Player.previous := Some "T"; Player._prev_position := 1500%Z;
     Player.queue := [Some "U"] |}.

Definition failover_example : World :=
  set_node_players 0 [(1%Z, playing_session); (2%Z, Player.fresh 0)]
    two_nodes_online.

(** The regions that a constructed region set iterates; a failed
    construction has none. *)
Definition regions_of (r : result Regions.t) : list string :=
  match r with
  | Ok R => Regions.__iter__ R
  | Raise _ => []
  end.

(** The outcome of a construction: it succeeded. *)
Definition constructed (r : result Regions.t) : bool :=
  match r with
  | Ok _ => true
  | Raise _ => false
  end.

(** The readiness signals agree with the membership: the signal of the
    cluster is set exactly when a node is online, the signal of an online
    node is set and the signal of an offline node is clear. *)
Definition readiness_consistent (w : World) : Prop :=
  (NodeManager.ready (manager w) = true ↔ NodeManager.nodes (manager w) ≠ []) ∧
  ∀ n, (n ∈ NodeManager.nodes (manager w) → node_ready w n = true) ∧
       (n ∈ NodeManager.offline_nodes (manager w) → node_ready w n = false).

(** The dictionary of the replacement node after the sessions of [source]
    have been moved into [target], in the order of [source]. *)
Definition migrate_into (new_node : node_ref) (target source : list (Z * Player.t))
    : list (Z * Player.t) :=
  foldl (λ acc gp, PyDict.update acc gp.1 (migrated new_node gp.2)) target source.

(** The calls made while the sessions of [source] are moved. *)
Definition migration_trace (new_node : node_ref) (source : list (Z * Player.t))
    : list Call :=
  concat ((λ gp, migration_calls new_node gp.1 gp.2) <$> source).

(** Collaborators whose calls all return, and collaborators whose voice
    bridge raises for guild 1. *)
Definition all_return (history : list Call) (c : Call) : result unit := Ok tt.

Definition voice_bridge_down (history : list Call) (c : Call) : result unit :=
  match c with
  | voice_state 1%Z _ => Raise (Exception "voice bridge down")
  | _ => Ok tt
  end.

(** The cluster whose [nodes] is [[2; 0; 1]], with the two sessions on node 0. *)
Definition failover_behind_first : World :=
  set_node_players 0 [(1%Z, playing_session); (2%Z, Player.fresh 0)]
    shared_region_online.

(** ** Tactics *)

(** Case analysis on the run of one round of the failover loop. *)
Ltac failover_player_cases outcome self g :=
  unfold failover_player, invoke;
  match goal with
  | |- context [PyDict.pop (node_players ?w self) g] =>
      destruct (PyDict.pop (node_players w self) g) as [[? ?]|]
  end;
  repeat match goal with
  | |- context [outcome ?h ?c] => destruct (outcome h c) as [[]|?]
  | |- context [if Player.is_playing ?p then _ else _] =>
      destruct (Player.is_playing p)
  end.

(** Membership of a call in an explicit list of calls. *)
Ltac among_calls := rewrite ?elem_of_cons; auto 10.

(** * Properties *)

(** ** Python lists *)

Lemma py_getitem_nonneg {A : Type} (l : list A) (i : Z) (x : A) :
  (0 ≤ i)%Z → l !! Z.to_nat i = Some x → py_getitem l i = Ok x.
Proof.
  intros Hi Hx. unfold py_getitem.
  pose proof (lookup_lt_Some _ _ _ Hx) as Hlt.
  destruct (Z.ltb_spec i 0) as [|_]; [lia|].
  destruct (Z.leb_spec 0 i) as [_|]; [|lia].
  destruct (Z.ltb_spec i (Z.of_nat (length l))) as [_|]; [|lia].
  simpl. by rewrite Hx.
Qed.

Lemma py_getitem_in_range {A : Type} (l : list A) (i : Z) :
  (- Z.of_nat (length l) ≤ i < Z.of_nat (length l))%Z →
  ∃ x, py_getitem l i = Ok x ∧ x ∈ l.
Proof.
  intros Hi. unfold py_getitem.
  set (j := if (i <? 0)%Z then (i + Z.of_nat (length l))%Z else i).
  assert (0 ≤ j < Z.of_nat (length l))%Z as Hj.
  { unfold j. destruct (Z.ltb_spec i 0); lia. }
  destruct (Z.leb_spec 0 j) as [_|]; [|lia].
  destruct (Z.ltb_spec j (Z.of_nat (length l))) as [_|]; [|lia].
  simpl. destruct (lookup_lt_is_Some_2 l (Z.to_nat j)) as [x Hx]; [lia|].
  rewrite Hx. exists x. split; [done|]. by eapply list_elem_of_lookup_2.
Qed.

Lemma py_getitem_below {A : Type} (l : list A) (i : Z) :
  (i < - Z.of_nat (length l))%Z → py_getitem l i = Raise IndexError.
Proof.
  intros Hi. unfold py_getitem.
  destruct (Z.ltb_spec i 0) as [_|]; [|lia].
  destruct (Z.leb_spec 0 (i + Z.of_nat (length l))) as [|_]; [lia|]. done.
Qed.

Lemma py_getitem_empty {A : Type} (i : Z) :
  py_getitem (@nil A) i = Raise IndexError.
Proof.
  unfold py_getitem. simpl length.
  set (j := if (i <? 0)%Z then (i + Z.of_nat 0)%Z else i).
  destruct (Z.leb_spec 0 j), (Z.ltb_spec j (Z.of_nat 0)); simpl; try done; lia.
Qed.

(** Popping the first occurrence of [x] is [l.remove(x)]. *)
Lemma py_pop_index `{EqDecision A} (l : list A) (x : A) :
  x ∈ l →
  ∃ i, py_index l x = Some i ∧ py_pop l i = Some (x, py_remove x l).
Proof.
  induction l as [|y l IH]; intros Hx; [by apply elem_of_nil in Hx|].
  unfold py_index, py_pop. simpl.
  destruct (decide (y = x)) as [->|Hne].
  - exists 0. simpl. done.
  - apply elem_of_cons in Hx as [?|Hx]; [congruence|].
    destruct (IH Hx) as (i & Hi & Hp).
    unfold py_index in Hi. unfold py_pop in Hp.
    destruct (list_find _ l) as [[j z]|]; [|done].
    simpl in Hi. injection Hi as ->. exists (S i). simpl.
    destruct (l !! i); [|done]. by injection Hp as -> ->.
Qed.

Lemma elem_of_py_remove `{EqDecision A} (x y : A) (l : list A) :
  y ∈ l → y = x ∨ y ∈ py_remove x l.
Proof.
  induction l as [|z l IH]; simpl; intros Hy; [by apply elem_of_nil in Hy|].
  destruct (decide (z = x)) as [->|Hne].
  - apply elem_of_cons in Hy as [->|Hy]; auto.
  - apply elem_of_cons in Hy as [->|Hy]; [right; left|].
    destruct (IH Hy); [by left|right; by right].
Qed.

Lemma length_py_remove `{EqDecision A} (x : A) (l : list A) :
  x ∈ l → S (length (py_remove x l)) = length l.
Proof.
  induction l as [|y l IH]; simpl; intros Hx; [by apply elem_of_nil in Hx|].
  destruct (decide (y = x)) as [->|Hne]; [done|].
  apply elem_of_cons in Hx as [?|Hx]; [congruence|]. simpl. by rewrite IH.
Qed.

(** ** Region sets *)

Lemma NoDup_DISCORD_REGIONS : NoDup DISCORD_REGIONS.
Proof. apply (bool_decide_unpack _). by vm_compute. Qed.

Lemma validate_valid (rs : list string) :
  Forall (λ r, r ∈ DISCORD_REGIONS) rs → Regions.validate rs = Ok tt.
Proof.
  induction 1 as [|r rs Hr _ IH]; simpl; [done|].
  by rewrite bool_decide_eq_true_2.
Qed.

Lemma validate_invalid (rs : list string) :
  ¬ Forall (λ r, r ∈ DISCORD_REGIONS) rs →
  ∃ r, r ∈ rs ∧ (r ∉ DISCORD_REGIONS) ∧
       Regions.validate rs
       = Raise (RegionNotFound (String.append "Invalid region: " r)).
Proof.
  induction rs as [|r rs IH]; intros Hn; [by destruct Hn|].
  simpl. destruct (decide (r ∈ DISCORD_REGIONS)) as [Hr|Hr].
  - rewrite bool_decide_eq_true_2 by done.
    destruct IH as (r' & ? & ? & ?).
    { intros Hall. apply Hn. by constructor. }
    exists r'. split; [by right|done].
  - rewrite bool_decide_eq_false_2 by done.
    exists r. split; [by left|done].
Qed.

(** C5, as amended: a list of valid identifiers is accepted and iterated as
    it was given, in order and with its repetitions (the empty list stands for
    the whole catalogue); every region comes out exactly once when the list
    given has no repetition.  Nothing is deduplicated. *)
Theorem Regions_iter_as_given (l : list string) :
  Forall (λ r, r ∈ DISCORD_REGIONS) l →
  ∃ R, Regions.__init__ (Some l) = Ok R ∧
       Regions.__iter__ R = match l with [] => DISCORD_REGIONS | _ :: _ => l end ∧
       (NoDup l → NoDup (Regions.__iter__ R)).
Proof.
  intros Hl. unfold Regions.__init__. destruct l as [|r l].
  - rewrite validate_valid.
    + eexists. split; [done|]. split; [done|].
      intros _. apply NoDup_DISCORD_REGIONS.
    + apply Forall_forall. auto.
  - rewrite validate_valid by done. eexists. split; [done|]. by split.
Qed.

Lemma Regions_iter_as_given_witness :
  ∃ R, Regions.__init__ (Some ["japan"; "sydney"]) = Ok R ∧
       Regions.__iter__ R = ["japan"; "sydney"] ∧
       (NoDup ["japan"; "sydney"] → NoDup (Regions.__iter__ R)).
Proof.
  apply (Regions_iter_as_given ["japan"; "sydney"]).
  apply (bool_decide_unpack _). by vm_compute.
Defined.

(** C5, counterexample: the valid list ["japan"; "japan"] is accepted and
    iterating the result yields "japan" twice. *)
Lemma Regions_keeps_repetitions :
  Forall (λ r, r ∈ DISCORD_REGIONS) ["japan"; "japan"] ∧
  ¬ (∃ R, Regions.__init__ (Some ["japan"; "japan"]) = Ok R ∧
          NoDup (Regions.__iter__ R)).
Proof.
  split.
  - apply (bool_decide_unpack _). by vm_compute.
  - intros (R & HR & Hnd). vm_compute in HR. injection HR as <-.
    simpl in Hnd. apply NoDup_cons in Hnd as [Hin _]. apply Hin. by left.
Qed.

(** ** Selection: [get_rest] *)

Lemma get_rest_empty (m : NodeManager.t) :
  NodeManager.nodes m = [] → get_rest m = (Raise NoNodesAvailable, m).
Proof. intros Hm. unfold get_rest. by rewrite Hm. Qed.

(** One round-robin selection, for a default index that Python can resolve
    or that lies past the end of [nodes]. *)
Lemma get_rest_round_robin (m : NodeManager.t) :
  let len := Z.of_nat (length (NodeManager.nodes m)) in
  NodeManager.round_robin m = true →
  NodeManager.nodes m ≠ [] →
  (- len ≤ NodeManager.default_node_index m)%Z →
  (0 ≤ NodeManager._rr_pos m)%Z →
  ∃ n, NodeManager.nodes m !! Z.to_nat (Z.min (NodeManager._rr_pos m) (len - 1)) = Some n ∧
       get_rest m =
         (Ok (Some n),
          NodeManager.set_rr_pos
            (if (NodeManager._rr_pos m + 1 >? len)%Z then 0%Z
             else (NodeManager._rr_pos m + 1)%Z) m).
Proof.
  intros len Hrr Hne Hdef Hpos. unfold get_rest. fold len.
  destruct (NodeManager.nodes m) as [|n0 ns] eqn:Hnodes; [done|].
  assert (0 < len)%Z as Hlen by (unfold len; simpl; lia).
  set (i := Z.min (NodeManager._rr_pos m) (len - 1)).
  destruct (lookup_lt_is_Some_2 (n0 :: ns) (Z.to_nat i)) as [n Hn].
  { unfold i, len in *. lia. }
  exists n. split; [done|].
  rewrite (py_getitem_nonneg (n0 :: ns) i n) by (done || unfold i; lia).
  rewrite Hrr.
  destruct (Z.ltb_spec (NodeManager.default_node_index m) len) as [Hlt|Hge].
  - destruct (py_getitem_in_range (n0 :: ns) (NodeManager.default_node_index m))
      as (x & -> & _); [by fold len|]. done.
  - done.
Qed.

(** A selection with round-robin disabled. *)
Lemma get_rest_fixed_default (m : NodeManager.t) :
  let len := Z.of_nat (length (NodeManager.nodes m)) in
  NodeManager.round_robin m = false →
  NodeManager.nodes m ≠ [] →
  (- len ≤ NodeManager.default_node_index m)%Z →
  ∃ n, n ∈ NodeManager.nodes m ∧ get_rest m = (Ok (Some n), m).
Proof.
  intros len Hrr Hne Hdef. unfold get_rest. fold len.
  destruct (NodeManager.nodes m) as [|n0 ns] eqn:Hnodes; [done|].
  rewrite Hrr.
  destruct (Z.ltb_spec (NodeManager.default_node_index m) len) as [Hlt|Hge].
  - destruct (py_getitem_in_range (n0 :: ns) (NodeManager.default_node_index m))
      as (x & -> & Hx); [by fold len|]. by exists x.
  - exists n0. split; [by left|]. done.
Qed.

(** A default index below [-len(nodes)] makes every selection raise
    [IndexError], whatever the policy. *)
Lemma get_rest_default_below (m : NodeManager.t) :
  NodeManager.nodes m ≠ [] →
  (NodeManager.default_node_index m < - Z.of_nat (length (NodeManager.nodes m)))%Z →
  get_rest m = (Raise IndexError, m).
Proof.
  intros Hne Hdef. unfold get_rest.
  destruct (NodeManager.nodes m) as [|n0 ns] eqn:Hnodes; [done|].
  destruct (Z.ltb_spec (NodeManager.default_node_index m)
              (Z.of_nat (length (n0 :: ns)))) as [_|]; [|lia].
  by rewrite py_getitem_below.
Qed.

(** [get_rest] raises [NoNodesAvailable] exactly on an empty [nodes]. *)
Lemma get_rest_NoNodesAvailable_iff (m : NodeManager.t) :
  (get_rest m).1 = Raise NoNodesAvailable ↔ NodeManager.nodes m = [].
Proof.
  split; [|intros Hm; by rewrite get_rest_empty].
  unfold get_rest. destruct (NodeManager.nodes m) as [|n0 ns]; [done|].
  intros H. exfalso. revert H.
  set (l := n0 :: ns).
  assert (∀ i, py_getitem l i ≠ Raise NoNodesAvailable) as Hge.
  { intros i. unfold py_getitem.
    repeat (case_match; try done). }
  repeat match goal with
         | |- context [py_getitem l ?i] =>
             let H := fresh in
             pose proof (Hge i) as H; destruct (py_getitem l i) as [?|[]]
         | |- context [if ?b then _ else _] => destruct b
         end; simpl; try done.
Qed.

(** The cursor after a selection: unchanged when nothing is returned by
    round-robin, otherwise advanced by one and put back to 0 when that
    would lead past [len(nodes)]. *)
Lemma get_rest_cursor (m : NodeManager.t) :
  let len := Z.of_nat (length (NodeManager.nodes m)) in
  let m' := (get_rest m).2 in
  NodeManager._rr_pos m' = NodeManager._rr_pos m
  ∨ (NodeManager.round_robin m = true ∧
     NodeManager._rr_pos m' =
       if (NodeManager._rr_pos m + 1 >? len)%Z then 0%Z
       else (NodeManager._rr_pos m + 1)%Z).
Proof.
  intros len m'. unfold m', get_rest. fold len.
  destruct (NodeManager.nodes m) as [|n0 ns]; [by left|].
  repeat match goal with
         | |- context [py_getitem ?l ?i] => destruct (py_getitem l i)
         | |- context [if ?b then _ else _] => destruct b eqn:?
         end; simpl; auto.
Qed.

Lemma get_rest_frame (m : NodeManager.t) :
  let m' := (get_rest m).2 in
  NodeManager.nodes m' = NodeManager.nodes m ∧
  NodeManager.offline_nodes m' = NodeManager.offline_nodes m ∧
  NodeManager.nodes_by_region m' = NodeManager.nodes_by_region m ∧
  NodeManager.default_node_index m' = NodeManager.default_node_index m ∧
  NodeManager.round_robin m' = NodeManager.round_robin m.
Proof.
  unfold get_rest.
  destruct (NodeManager.nodes m) as [|n0 ns] eqn:Hn; [simpl; by rewrite ?Hn|].
  repeat match goal with
         | |- context [py_getitem ?l ?i] => destruct (py_getitem l i)
         | |- context [if ?b then _ else _] => destruct b eqn:?
         end; simpl; by rewrite ?Hn.
Qed.

Lemma set_rr_pos_id (m : NodeManager.t) :
  NodeManager.set_rr_pos (NodeManager._rr_pos m) m = m.
Proof. by destruct m. Qed.

Lemma set_rr_pos_twice (a b : Z) (m : NodeManager.t) :
  NodeManager.set_rr_pos a (NodeManager.set_rr_pos b m) = NodeManager.set_rr_pos a m.
Proof. done. Qed.

(** [k] round-robin selections from cursor [i] walk [nodes] from position
    [i], as long as they stay inside the list. *)
Lemma get_rest_n_round_robin (k i : nat) (m : NodeManager.t) :
  NodeManager.round_robin m = true →
  (- Z.of_nat (length (NodeManager.nodes m)) ≤ NodeManager.default_node_index m)%Z →
  NodeManager._rr_pos m = Z.of_nat i →
  (i + k ≤ length (NodeManager.nodes m))%nat →
  get_rest_n k m =
    (Ok (Some <$> take k (drop i (NodeManager.nodes m))),
     NodeManager.set_rr_pos (Z.of_nat (i + k)) m).
Proof.
  revert i m. induction k as [|k IH]; intros i m Hrr Hdef Hpos Hlen.
  - simpl. rewrite Nat.add_0_r, <- Hpos. by rewrite set_rr_pos_id.
  - simpl.
    destruct (get_rest_round_robin m) as (n & Hn & ->); try done; try lia.
    { intros Hnil. rewrite Hnil in Hlen. simpl in Hlen. lia. }
    rewrite Hpos in *.
    replace (Z.to_nat (Z.min (Z.of_nat i) (Z.of_nat (length (NodeManager.nodes m)) - 1)))
      with i in Hn by lia.
    destruct (Z.gtb_spec (Z.of_nat i + 1) (Z.of_nat (length (NodeManager.nodes m))))
      as [|_]; [lia|].
    rewrite (IH (S i)); simpl; try done; try lia.
    rewrite (drop_S _ _ _ Hn), set_rr_pos_twice. simpl.
    do 2 f_equal. lia.
Qed.

(** With round-robin enabled, N >= 1 nodes online, the cursor at 0 and a
    default index of at least -N, N consecutive selections return the online
    nodes one by one, each once, in the order of [nodes], and leave the cursor
    at N, the value from which the next selection takes it back to 0. *)
Theorem get_rest_round_robin_cycle (m : NodeManager.t) :
  let N := length (NodeManager.nodes m) in
  NodeManager.round_robin m = true →
  NodeManager._rr_pos m = 0%Z →
  NodeManager.nodes m ≠ [] →
  (- Z.of_nat N ≤ NodeManager.default_node_index m)%Z →
  get_rest_n N m =
    (Ok (Some <$> NodeManager.nodes m), NodeManager.set_rr_pos (Z.of_nat N) m) ∧
  get_rest (NodeManager.set_rr_pos (Z.of_nat N) m) =
    (Ok (last (NodeManager.nodes m)), NodeManager.set_rr_pos 0 m).
Proof.
  intros N Hrr Hpos Hne Hdef. split.
  - rewrite (get_rest_n_round_robin N 0 m); try done.
    unfold N. rewrite drop_0, firstn_all. done.
  - set (m' := NodeManager.set_rr_pos (Z.of_nat N) m).
    destruct (get_rest_round_robin m') as (n & Hn & ->); try done.
    { simpl. lia. }
    simpl in *. fold N in Hn |- *.
    assert (0 < N)%nat by (unfold N; destruct (NodeManager.nodes m); simpl; [done|lia]).
    replace (Z.to_nat (Z.min (Z.of_nat N) (Z.of_nat N - 1))) with (N - 1) in Hn by lia.
    rewrite last_lookup. replace (Init.Nat.pred (length (NodeManager.nodes m)))
      with (N - 1) by (unfold N; lia).
    rewrite Hn.
    destruct (Z.gtb_spec (Z.of_nat N + 1) (Z.of_nat N)) as [_|]; [|lia].
    done.
Qed.

Lemma get_rest_round_robin_cycle_two_nodes :
  get_rest_n 2 (manager two_nodes_online) =
    (Ok [Some 0; Some 1], NodeManager.set_rr_pos 2 (manager two_nodes_online)) ∧
  get_rest (NodeManager.set_rr_pos 2 (manager two_nodes_online)) =
    (Ok (Some 1), NodeManager.set_rr_pos 0 (manager two_nodes_online)).
Proof.
  apply (get_rest_round_robin_cycle (manager two_nodes_online));
    vm_compute; congruence.
Defined.

(** ** Promotion and demotion *)

Lemma route_regions_lookup (regions : list string) (target : node_ref)
    (tbl : gmap string node_ref) (r : string) :
  route_regions regions target tbl !! r =
    if decide (r ∈ regions) then Some target else tbl !! r.
Proof.
  unfold route_regions. revert tbl.
  induction regions as [|r' regions IH]; intros tbl; cbn [foldl].
  - rewrite decide_False; [done|apply not_elem_of_nil].
  - rewrite IH. destruct (decide (r ∈ regions)) as [Hin|Hnin].
    + rewrite decide_True; [done|by right].
    + destruct (decide (r' = r)) as [->|Hne].
      * rewrite decide_True by (by left). by rewrite lookup_insert_eq.
      * rewrite decide_False.
        -- by rewrite lookup_insert_ne.
        -- intros [?|?]%elem_of_cons; congruence.
Qed.

Lemma node_regions_alter_ready (w w' : World) (node node' : node_ref) (b : bool) :
  heap w' = alter (LavalinkNode.set_ready b) node' (heap w) →
  node_regions w' node = node_regions w node.
Proof.
  intros Hheap. unfold node_regions. rewrite Hheap.
  destruct (decide (node' = node)) as [->|Hne].
  - rewrite list_lookup_alter_eq. by destruct (heap w !! node).
  - by rewrite list_lookup_alter_ne.
Qed.

(** What [on_node_ready] does to a node found in [offline_nodes]. *)
Lemma on_node_ready_offline (node : node_ref) (w : World) :
  let m := manager w in
  node ∈ NodeManager.offline_nodes m →
  on_node_ready node w =
    {| manager :=
         {| NodeManager.default_node_index := NodeManager.default_node_index m;
            NodeManager.round_robin := NodeManager.round_robin m;
            NodeManager._rr_pos := NodeManager._rr_pos m;
            NodeManager.nodes := NodeManager.nodes m ++ [node];
            NodeManager.offline_nodes := py_remove node (NodeManager.offline_nodes m);
            NodeManager.nodes_by_region :=
              route_regions (node_regions w node) node (NodeManager.nodes_by_region m);
            NodeManager._hooks := NodeManager._hooks m;
            NodeManager.ready := true |};
       heap := alter (LavalinkNode.set_ready true) node (heap w);
       loop_tasks := loop_tasks w ++ [NodeReadyEvent node];
       calls := calls w |}.
Proof.
  intros m Hin. unfold on_node_ready. fold m.
  rewrite bool_decide_eq_false_2 by (intros Hn; by apply Hn).
  destruct (py_pop_index _ _ Hin) as (i & -> & ->).
  unfold create_task, update_manager, set_manager. simpl.
  by erewrite (node_regions_alter_ready w) by reflexivity.
Qed.

(** What [on_node_disabled] does to a node found in [nodes]: with no node
    left it stops after clearing the readiness signals; otherwise it routes
    the regions of the node to the first node left and schedules the event. *)
Lemma on_node_disabled_online (node : node_ref) (w : World) :
  let m := manager w in
  node ∈ NodeManager.nodes m →
  on_node_disabled node w =
    match py_remove node (NodeManager.nodes m) with
    | [] =>
        {| manager :=
             {| NodeManager.default_node_index := NodeManager.default_node_index m;
                NodeManager.round_robin := NodeManager.round_robin m;
                NodeManager._rr_pos := NodeManager._rr_pos m;
                NodeManager.nodes := [];
                NodeManager.offline_nodes := NodeManager.offline_nodes m ++ [node];
                NodeManager.nodes_by_region := NodeManager.nodes_by_region m;
                NodeManager._hooks := NodeManager._hooks m;
                NodeManager.ready := false |};
           heap := alter (LavalinkNode.set_ready false) node (heap w);
           loop_tasks := loop_tasks w;
           calls := calls w |}
    | default_node :: rest =>
        {| manager :=
             {| NodeManager.default_node_index := NodeManager.default_node_index m;
                NodeManager.round_robin := NodeManager.round_robin m;
                NodeManager._rr_pos := NodeManager._rr_pos m;
                NodeManager.nodes := default_node :: rest;
                NodeManager.offline_nodes := NodeManager.offline_nodes m ++ [node];
                NodeManager.nodes_by_region :=
                  route_regions (node_regions w node) default_node
                    (NodeManager.nodes_by_region m);
                NodeManager._hooks := NodeManager._hooks m;
                NodeManager.ready := NodeManager.ready m |};
           heap := alter (LavalinkNode.set_ready false) node (heap w);
           loop_tasks := loop_tasks w ++ [NodeDisabledEvent node];
           calls := calls w |}
    end.
Proof.
  intros m Hin. unfold on_node_disabled. fold m.
  rewrite bool_decide_eq_false_2 by (intros Hn; by apply Hn).
  destruct (py_pop_index _ _ Hin) as (i & -> & ->).
  unfold create_task, update_manager, set_manager. simpl.
  destruct (py_remove node (NodeManager.nodes m)) as [|default_node rest]; simpl.
  - done.
  - by erewrite (node_regions_alter_ready w) by reflexivity.
Qed.

Lemma on_node_ready_absent (node : node_ref) (w : World) :
  node ∉ NodeManager.offline_nodes (manager w) → on_node_ready node w = w.
Proof. intros Hn. unfold on_node_ready. by rewrite bool_decide_eq_true_2. Qed.

Lemma on_node_disabled_absent (node : node_ref) (w : World) :
  node ∉ NodeManager.nodes (manager w) → on_node_disabled node w = w.
Proof. intros Hn. unfold on_node_disabled. by rewrite bool_decide_eq_true_2. Qed.

(** C9: [on_node_ready] for a node that is not in [offline_nodes], and
    [on_node_disabled] for a node that is not in [nodes], return at once: the
    two collections, the routing table, the readiness signals of the node and
    of the cluster, the cursor and the queue of scheduled dispatches are what
    they were (nothing at all changes). *)
Theorem promote_demote_noop (node : node_ref) (w : World) :
  (node ∉ NodeManager.offline_nodes (manager w) → on_node_ready node w = w) ∧
  (node ∉ NodeManager.nodes (manager w) → on_node_disabled node w = w).
Proof.
  split; [apply on_node_ready_absent|apply on_node_disabled_absent].
Qed.

Lemma promote_demote_noop_witness :
  on_node_ready 0 two_nodes_online = two_nodes_online ∧
  on_node_disabled 7 two_nodes_online = two_nodes_online.
Proof.
  split.
  - apply (proj1 (promote_demote_noop 0 two_nodes_online)).
    vm_compute. by intros ?%elem_of_nil.
  - apply (proj2 (promote_demote_noop 7 two_nodes_online)).
    apply (bool_decide_unpack _). by vm_compute.
Defined.

(** ** Selection by region *)

(** C10: with no node online and no routing entry for the region of the
    guild, [get_by_region] fails at [self.nodes[0]] with [IndexError], not with
    [NoNodesAvailable], and leaves everything as it was. *)
Theorem get_by_region_empty_IndexError (guild : Guild) (w : World) :
  NodeManager.nodes (manager w) = [] →
  NodeManager.nodes_by_region (manager w) !! region guild = None →
  get_by_region guild w = (Raise IndexError, w) ∧
  (get_by_region guild w).1 ≠ Raise NoNodesAvailable.
Proof.
  intros Hnodes Hroute. unfold get_by_region.
  rewrite Hroute, Hnodes, py_getitem_empty. done.
Qed.

Lemma get_by_region_empty_IndexError_witness :
  get_by_region {| id := 42; region := "japan" |} (init 0 true)
    = (Raise IndexError, init 0 true) ∧
  (get_by_region {| id := 42; region := "japan" |} (init 0 true)).1
    ≠ Raise NoNodesAvailable.
Proof.
  apply (get_by_region_empty_IndexError {| id := 42; region := "japan" |} (init 0 true));
    reflexivity.
Defined.

(** ** Runs *)

Lemma reachable_run (ops : list op) (w : World) :
  reachable w → reachable (run ops w).
Proof.
  revert w. induction ops as [|o ops IH]; intros w Hw; [done|].
  apply IH. by constructor.
Qed.

Lemma failover_player_manager (outcome : list Call → Call → result unit)
    (self new_node : node_ref) (g : Z) (w : World) :
  manager (failover_player outcome self new_node g w).2 = manager w.
Proof. failover_player_cases outcome self g; done. Qed.

(** What every round of the loop keeps, the loop keeps, whether it runs to
    its end or is left by an exception. *)
Lemma failover_loop_preserves (R : World → World → Prop)
    (outcome : list Call → Call → result unit) (self new_node : node_ref) :
  (∀ w, R w w) →
  (∀ w1 w2 w3, R w1 w2 → R w2 w3 → R w1 w3) →
  (∀ g w, R w (failover_player outcome self new_node g w).2) →
  ∀ gs w, R w (failover_loop outcome self new_node gs w).2.
Proof.
  intros Hrefl Htrans Hround gs. induction gs as [|g gs IH]; intros w; [apply Hrefl|].
  simpl. pose proof (Hround g w) as Hg.
  destruct (failover_player outcome self new_node g w) as [[[]|e] w']; simpl in *.
  - eapply Htrans; [exact Hg|apply IH].
  - exact Hg.
Qed.

Lemma failover_loop_manager (outcome : list Call → Call → result unit)
    (self new_node : node_ref) (gs : list Z) (w : World) :
  manager (failover_loop outcome self new_node gs w).2 = manager w.
Proof.
  apply (failover_loop_preserves (λ w w', manager w' = manager w)); [done|congruence|].
  intros. apply failover_player_manager.
Qed.

Lemma manage_failover_manager (outcome : list Call → Call → result unit)
    (self : node_ref) (w : World) :
  manager (manage_failover outcome self w).2 = manager w.
Proof.
  unfold manage_failover.
  destruct (NodeManager.nodes (manager w)); [done|apply failover_loop_manager].
Qed.

Lemma get_by_region_manager (guild : Guild) (w : World) :
  manager (get_by_region guild w).2 = manager w.
Proof.
  unfold get_by_region, players_get.
  repeat case_match; simplify_eq; done.
Qed.

Lemma hooks_same_registry (func : hook_ref) (w : World) :
  same_registry (manager w) (manager (register_node_hook func w)) ∧
  same_registry (manager w) (manager (unregister_node_hook func w)).
Proof.
  unfold register_node_hook, unregister_node_hook, same_registry.
  split; case_bool_decide; done.
Qed.

(** ** The routing table *)

(** C4, as amended: when a node is demoted and an online node remains, the
    entries of the regions in the demoted node's own region set are pointed at
    the first remaining online node, wherever they led before; every other
    entry is unchanged, also when it led to the demoted node. *)
Theorem on_node_disabled_routing (node default_node : node_ref)
    (rest : list node_ref) (w : World) :
  node ∈ NodeManager.nodes (manager w) →
  NodeManager.nodes (manager (on_node_disabled node w)) = default_node :: rest →
  py_remove node (NodeManager.nodes (manager w)) = default_node :: rest ∧
  ∀ r, NodeManager.nodes_by_region (manager (on_node_disabled node w)) !! r =
         if decide (r ∈ node_regions w node) then Some default_node
         else NodeManager.nodes_by_region (manager w) !! r.
Proof.
  intros Hin. rewrite (on_node_disabled_online node w Hin).
  destruct (py_remove node (NodeManager.nodes (manager w))) as [|d rest'];
    simpl; intros Hnodes; [done|].
  injection Hnodes as -> ->. split; [done|].
  intros r. apply route_regions_lookup.
Qed.

Lemma on_node_disabled_routing_witness :
  py_remove 0 (NodeManager.nodes (manager three_nodes_second_demoted)) = [2] ∧
  ∀ r, NodeManager.nodes_by_region
         (manager (on_node_disabled 0 three_nodes_second_demoted)) !! r =
         if decide (r ∈ node_regions three_nodes_second_demoted 0) then Some 2
         else NodeManager.nodes_by_region (manager three_nodes_second_demoted) !! r.
Proof.
  apply (on_node_disabled_routing 0 2 [] three_nodes_second_demoted).
  - apply (bool_decide_unpack _). by vm_compute.
  - by vm_compute.
Defined.

(** C4, counterexample: three nodes serve one region each; the second node
    is demoted and its region "sydney" falls to the first node; when the first
    node is demoted in turn, "sydney" is routed to it but is not repointed to
    the node that remains. *)
Lemma sydney_not_repointed :
  reachable three_nodes_second_demoted ∧
  0 ∈ NodeManager.nodes (manager three_nodes_second_demoted) ∧
  ¬ repoints_routed 0 three_nodes_second_demoted.
Proof.
  split; [|split].
  - do 2 apply reachable_run. constructor.
  - apply (bool_decide_unpack _). by vm_compute.
  - intros Hc. destruct (Hc 2 []) with (r := "sydney") as [Hrouted _].
    { by vm_compute. }
    assert (NodeManager.nodes_by_region (manager three_nodes_second_demoted)
              !! "sydney" = Some 0) as H0 by (by vm_compute).
    specialize (Hrouted H0). vm_compute in Hrouted. done.
Qed.

(** An entry that led to another online node is repointed as well when its
    region is in the region set of the demoted node. *)
Lemma foreign_entry_repointed :
  reachable shared_region_online ∧
  NodeManager.nodes (manager shared_region_online) = [2; 0; 1] ∧
  NodeManager.nodes_by_region (manager shared_region_online) !! "japan" = Some 1 ∧
  NodeManager.nodes_by_region (manager (on_node_disabled 0 shared_region_online))
    !! "japan" = Some 2.
Proof.
  split; [apply reachable_run; constructor|]. by vm_compute.
Qed.

Lemma step_same_registry (o : op) (w : World) :
  match o with
  | op_get_by_region _ | op_register_node_hook _
  | op_unregister_node_hook _ | op_manage_failover _ _ => True
  | _ => False
  end →
  same_registry (manager w) (manager (step o w)).
Proof.
  destruct o; intros []; simpl.
  - by rewrite get_by_region_manager.
  - apply hooks_same_registry.
  - apply hooks_same_registry.
  - by rewrite manage_failover_manager.
Qed.

Lemma step_routes_registered (o : op) (w : World) :
  routes_registered w → routes_registered (step o w).
Proof.
  intros Hw. destruct o as [? ? ? ? ? ? ?|node|node| | | | |];
    try (match goal with
         | |- routes_registered (step ?o _) =>
             destruct (step_same_registry o w I) as (Hn & Ho & Hr & _)
         end;
         unfold routes_registered; rewrite Hn, Ho, Hr; exact Hw).
  - intros r n. simpl. intros Hr. destruct (Hw r n Hr); [by left|].
    right. apply elem_of_app. by left.
  - simpl. unfold set_online.
    destruct (decide (node ∈ NodeManager.offline_nodes (manager w))) as [Hin|Hnin].
    + rewrite (on_node_ready_offline node w Hin). intros r n. simpl.
      rewrite route_regions_lookup. case_decide.
      * intros [= <-]. left. apply elem_of_app. right. by left.
      * intros Hr. destruct (Hw r n Hr) as [Hon|Hoff].
        -- left. apply elem_of_app. by left.
        -- destruct (elem_of_py_remove node n _ Hoff) as [->|?]; [|by right].
           left. apply elem_of_app. right. by left.
    + by rewrite on_node_ready_absent.
  - simpl. unfold set_offline.
    destruct (decide (node ∈ NodeManager.nodes (manager w))) as [Hin|Hnin].
    + rewrite (on_node_disabled_online node w Hin). intros r n.
      destruct (py_remove node (NodeManager.nodes (manager w)))
        as [|d rest] eqn:Hrem; simpl.
      * intros Hr. right. destruct (Hw r n Hr) as [Hon|Hoff].
        -- destruct (elem_of_py_remove node n _ Hon) as [->|Hn].
           ++ apply elem_of_app. right. by left.
           ++ rewrite Hrem in Hn. by apply elem_of_nil in Hn.
        -- apply elem_of_app. by left.
      * rewrite route_regions_lookup. case_decide.
        -- intros [= <-]. left. by left.
        -- intros Hr. destruct (Hw r n Hr) as [Hon|Hoff].
           ++ destruct (elem_of_py_remove node n _ Hon) as [->|Hn].
              ** right. apply elem_of_app. right. by left.
              ** left. by rewrite <- Hrem.
           ++ right. apply elem_of_app. by left.
    + by rewrite on_node_disabled_absent.
  - simpl. destruct (get_rest_frame (manager w)) as (Hn & Ho & Hr & _).
    unfold routes_registered. simpl. rewrite Hn, Ho, Hr. exact Hw.
Qed.

Lemma reachable_routes_registered (w : World) :
  reachable w → routes_registered w.
Proof.
  induction 1 as [d rr|o w _ IH].
  - intros r n. simpl. by rewrite lookup_empty.
  - by apply step_routes_registered.
Qed.

(** From a state whose routing entries all lead to online nodes, one
    operation leaves them so, except for the entries that a demotion leaves
    on the demoted node. *)
Lemma step_routes_online (o : op) (w : World) (r : string) (n : node_ref) :
  routes_online w →
  NodeManager.nodes_by_region (manager (step o w)) !! r = Some n →
  n ∈ NodeManager.nodes (manager (step o w)) ∨
  (o = op_set_offline n ∧
   n ∈ NodeManager.offline_nodes (manager (step o w)) ∧
   NodeManager.nodes_by_region (manager w) !! r = Some n ∧
   (NodeManager.nodes (manager (step o w)) = [] ∨ r ∉ node_regions w n)).
Proof.
  intros Hw. destruct o as [? ? ? ? ? ? ?|node|node| | | | |];
    try (match goal with
         | |- context [step ?o _] =>
             destruct (step_same_registry o w I) as (Hn & _ & Hr & _)
         end;
         rewrite Hn, Hr; intros Hl; left; by apply (Hw r)).
  - simpl. intros Hl. left. by apply (Hw r).
  - simpl. unfold set_online.
    destruct (decide (node ∈ NodeManager.offline_nodes (manager w))) as [Hin|Hnin].
    + rewrite (on_node_ready_offline node w Hin). simpl.
      rewrite route_regions_lookup. case_decide.
      * intros [= <-]. left. apply elem_of_app. right. by left.
      * intros Hl. left. apply elem_of_app. left. by apply (Hw r).
    + rewrite on_node_ready_absent by done. intros Hl. left. by apply (Hw r).
  - simpl. unfold set_offline.
    destruct (decide (node ∈ NodeManager.nodes (manager w))) as [Hin|Hnin].
    + rewrite (on_node_disabled_online node w Hin).
      destruct (py_remove node (NodeManager.nodes (manager w)))
        as [|d rest] eqn:Hrem; simpl.
      * intros Hl. right.
        destruct (elem_of_py_remove node n _ (Hw r n Hl)) as [->|Hn].
        -- split; [done|]. split; [apply elem_of_app; right; by left|].
           split; [done|by left].
        -- rewrite Hrem in Hn. by apply elem_of_nil in Hn.
      * rewrite route_regions_lookup. case_decide as Hreg.
        -- intros [= <-]. left. by left.
        -- intros Hl.
           destruct (elem_of_py_remove node n _ (Hw r n Hl)) as [->|Hn].
           ++ right. split; [done|]. split; [apply elem_of_app; right; by left|].
              split; [done|by right].
           ++ left. by rewrite <- Hrem.
    + rewrite on_node_disabled_absent by done. intros Hl. left. by apply (Hw r).
  - simpl. destruct (get_rest_frame (manager w)) as (Hn & _ & Hr & _).
    rewrite Hn, Hr. intros Hl. left. by apply (Hw r).
Qed.

(** C2, as amended: in every reachable state every region of the routing
    table maps to a node that is in the online or in the offline collection.
    From a state in which all of them map to online nodes, every operation
    leaves them so, except that a demotion leaves on the demoted node, now
    offline, the entries it does not repoint: all the entries that led to it
    when no online node remains, and otherwise those whose region is outside
    its own region set. *)
Theorem routing_table_targets (w : World) :
  reachable w →
  routes_registered w ∧
  (routes_online w →
   ∀ o r n,
     NodeManager.nodes_by_region (manager (step o w)) !! r = Some n →
     n ∈ NodeManager.nodes (manager (step o w)) ∨
     (o = op_set_offline n ∧
      n ∈ NodeManager.offline_nodes (manager (step o w)) ∧
      NodeManager.nodes_by_region (manager w) !! r = Some n ∧
      (NodeManager.nodes (manager (step o w)) = [] ∨ r ∉ node_regions w n))).
Proof.
  intros Hw. split; [by apply reachable_routes_registered|].
  intros Hon o r n. by apply step_routes_online.
Qed.

Lemma routing_table_targets_witness :
  routes_registered two_nodes_online ∧
  ∀ o r n,
    NodeManager.nodes_by_region (manager (step o two_nodes_online)) !! r = Some n →
    n ∈ NodeManager.nodes (manager (step o two_nodes_online)) ∨
    (o = op_set_offline n ∧
     n ∈ NodeManager.offline_nodes (manager (step o two_nodes_online)) ∧
     NodeManager.nodes_by_region (manager two_nodes_online) !! r = Some n ∧
     (NodeManager.nodes (manager (step o two_nodes_online)) = []
      ∨ r ∉ node_regions two_nodes_online n)).
Proof.
  destruct (routing_table_targets two_nodes_online) as [Hreg Hstep].
  - apply reachable_run. constructor.
  - split; [exact Hreg|]. apply Hstep.
    apply (bool_decide_unpack
             (map_Forall (λ _ n, n ∈ NodeManager.nodes (manager two_nodes_online))
                (NodeManager.nodes_by_region (manager two_nodes_online)))).
    by vm_compute.
Defined.

(** C2, counterexample: a single node with region "japan" comes online and
    goes offline again; the entry of "japan" still leads to it, and the online
    collection is empty. *)
Lemma routed_node_offline :
  reachable only_node_demoted ∧
  NodeManager.nodes_by_region (manager only_node_demoted) !! "japan" = Some 0 ∧
  NodeManager.nodes (manager only_node_demoted) = [] ∧
  ¬ routes_online only_node_demoted.
Proof.
  split; [apply reachable_run; constructor|].
  split; [by vm_compute|]. split; [by vm_compute|].
  intros Hc. specialize (Hc "japan" 0). vm_compute in Hc.
  specialize (Hc eq_refl). by apply elem_of_nil in Hc.
Qed.

(** ** The round-robin cursor *)

Lemma on_node_ready_cursor (node : node_ref) (w : World) :
  let m' := manager (on_node_ready node w) in
  NodeManager._rr_pos m' = NodeManager._rr_pos (manager w) ∧
  (length (NodeManager.nodes m') + length (NodeManager.offline_nodes m')
   = length (NodeManager.nodes (manager w))
     + length (NodeManager.offline_nodes (manager w)))%nat.
Proof.
  destruct (decide (node ∈ NodeManager.offline_nodes (manager w))) as [Hin|Hnin].
  - rewrite (on_node_ready_offline node w Hin). simpl. split; [done|].
    rewrite length_app. simpl.
    pose proof (length_py_remove node _ Hin). lia.
  - by rewrite on_node_ready_absent.
Qed.

Lemma on_node_disabled_cursor (node : node_ref) (w : World) :
  let m' := manager (on_node_disabled node w) in
  NodeManager._rr_pos m' = NodeManager._rr_pos (manager w) ∧
  (length (NodeManager.nodes m') + length (NodeManager.offline_nodes m')
   = length (NodeManager.nodes (manager w))
     + length (NodeManager.offline_nodes (manager w)))%nat.
Proof.
  destruct (decide (node ∈ NodeManager.nodes (manager w))) as [Hin|Hnin].
  - rewrite (on_node_disabled_online node w Hin).
    pose proof (length_py_remove node _ Hin) as Hlen.
    destruct (py_remove node (NodeManager.nodes (manager w))) as [|d rest];
      simpl in *; (split; [done|]); rewrite length_app; simpl; lia.
  - by rewrite on_node_disabled_absent.
Qed.

(** A round-robin selection that returns leaves the cursor in
    [[0, len(nodes)]]. *)
Lemma get_rest_cursor_in_online (m m' : NodeManager.t) (node : option node_ref) :
  let len := Z.of_nat (length (NodeManager.nodes m)) in
  (0 ≤ NodeManager._rr_pos m)%Z →
  NodeManager.round_robin m = true →
  get_rest m = (Ok node, m') →
  NodeManager._rr_pos m' =
    (if (NodeManager._rr_pos m + 1 >? len)%Z then 0%Z
     else (NodeManager._rr_pos m + 1)%Z) ∧
  (0 ≤ NodeManager._rr_pos m' ≤ len)%Z.
Proof.
  intros len Hpos Hrr. unfold get_rest. fold len. rewrite Hrr.
  destruct (NodeManager.nodes m) as [|n0 ns]; [done|].
  assert (∀ pos, pos = NodeManager._rr_pos m' →
            pos = (if (NodeManager._rr_pos m + 1 >? len)%Z then 0%Z
                   else (NodeManager._rr_pos m + 1)%Z) →
            (0 ≤ pos ≤ len)%Z) as Hbound.
  { intros pos _ ->. destruct (Z.gtb_spec (NodeManager._rr_pos m + 1) len); lia. }
  repeat match goal with
         | |- context [py_getitem ?l ?i] => destruct (py_getitem l i)
         | |- context [if (?a <? ?b)%Z then _ else _] => destruct (a <? b)%Z
         end; try done;
    intros [= _ <-]; simpl; (split; [done|]); by eapply Hbound.
Qed.

Lemma step_cursor_in_registered (o : op) (w : World) :
  cursor_in_registered w → cursor_in_registered (step o w).
Proof.
  unfold cursor_in_registered. intros Hw.
  destruct o as [? ? ? ? ? ? ?|node|node| | | | |];
    try (match goal with
         | |- context [step ?o _] =>
             destruct (step_same_registry o w I) as (Hn & Ho & _ & Hc)
         end;
         by rewrite Hn, Ho, Hc).
  - simpl. rewrite length_app. simpl. lia.
  - simpl. unfold set_online.
    destruct (on_node_ready_cursor node w) as [-> Hlen]. lia.
  - simpl. unfold set_offline.
    destruct (on_node_disabled_cursor node w) as [-> Hlen]. lia.
  - simpl. destruct (get_rest_frame (manager w)) as (-> & -> & _).
    destruct (get_rest_cursor (manager w)) as [->|[_ ->]]; [done|].
    destruct (Z.gtb_spec (NodeManager._rr_pos (manager w) + 1)
                (Z.of_nat (length (NodeManager.nodes (manager w))))); lia.
Qed.

Lemma reachable_cursor_in_registered (w : World) :
  reachable w → cursor_in_registered w.
Proof.
  induction 1 as [d rr|o w _ IH].
  - unfold cursor_in_registered. simpl. lia.
  - by apply step_cursor_in_registered.
Qed.

(** C6, as amended: in every reachable state the cursor lies in
    [[0, len(nodes) + len(offline_nodes)]].  [on_node_ready] and
    [on_node_disabled] never touch it, so it can exceed [len(nodes)] after a
    demotion.  A round-robin [get_rest] that returns a node leaves it in
    [[0, len(nodes)]]: advanced by one, and reset to 0 whenever that would
    exceed [len(nodes)]. *)
Theorem cursor_bounds (w : World) :
  reachable w →
  let m := manager w in
  let len := Z.of_nat (length (NodeManager.nodes m)) in
  cursor_in_registered w ∧
  (∀ node,
     NodeManager._rr_pos (manager (on_node_ready node w)) = NodeManager._rr_pos m ∧
     NodeManager._rr_pos (manager (on_node_disabled node w)) = NodeManager._rr_pos m) ∧
  (∀ node m',
     NodeManager.round_robin m = true →
     get_rest m = (Ok node, m') →
     NodeManager._rr_pos m' =
       (if (NodeManager._rr_pos m + 1 >? len)%Z then 0%Z
        else (NodeManager._rr_pos m + 1)%Z) ∧
     (0 ≤ NodeManager._rr_pos m' ≤ len)%Z).
Proof.
  intros Hw m len. pose proof (reachable_cursor_in_registered w Hw) as Hc.
  split; [done|]. split.
  - intros node. split; [apply on_node_ready_cursor|apply on_node_disabled_cursor].
  - intros node m' Hrr Hget.
    apply (get_rest_cursor_in_online m m' node); try done. apply Hc.
Qed.

Lemma cursor_bounds_witness :
  cursor_in_registered two_selections_then_demote ∧
  (∀ node,
     NodeManager._rr_pos (manager (on_node_ready node two_selections_then_demote)) = 2%Z ∧
     NodeManager._rr_pos (manager (on_node_disabled node two_selections_then_demote)) = 2%Z) ∧
  (∀ node m',
     NodeManager.round_robin (manager two_selections_then_demote) = true →
     get_rest (manager two_selections_then_demote) = (Ok node, m') →
     NodeManager._rr_pos m' = 0%Z ∧ (0 ≤ NodeManager._rr_pos m' ≤ 1)%Z).
Proof.
  apply (cursor_bounds two_selections_then_demote).
  do 2 apply reachable_run. constructor.
Defined.

(** C6, counterexample: two nodes online, two selections (cursor 2), then
    the second node is demoted: the cursor is still 2 and [len(nodes)] is 1. *)
Lemma cursor_exceeds_online :
  reachable two_selections_then_demote ∧
  NodeManager._rr_pos (manager two_selections_then_demote) = 2%Z ∧
  length (NodeManager.nodes (manager two_selections_then_demote)) = 1%nat ∧
  ¬ cursor_in_online two_selections_then_demote.
Proof.
  split; [do 2 apply reachable_run; constructor|].
  split; [by vm_compute|]. split; [by vm_compute|].
  unfold cursor_in_online.
  replace (NodeManager._rr_pos (manager two_selections_then_demote))
    with 2%Z by (by vm_compute).
  replace (length (NodeManager.nodes (manager two_selections_then_demote)))
    with 1%nat by (by vm_compute).
  lia.
Qed.

(** ** Failover *)

Lemma PyDict_get_update_eq {V : Type} (d : list (Z * V)) (k : Z) (v : V) :
  PyDict.get (PyDict.update d k v) k = Some v.
Proof.
  induction d as [|[k' v'] d IH]; simpl.
  - by rewrite decide_True.
  - destruct (decide (k' = k)) as [->|Hne]; simpl.
    + by rewrite decide_True.
    + by rewrite decide_False.
Qed.

Lemma PyDict_get_update_ne {V : Type} (d : list (Z * V)) (k k' : Z) (v : V) :
  k ≠ k' → PyDict.get (PyDict.update d k v) k' = PyDict.get d k'.
Proof.
  intros Hne. induction d as [|[k0 v0] d IH]; simpl.
  - by rewrite decide_False.
  - destruct (decide (k0 = k)) as [->|Hne0]; simpl.
    + by rewrite !decide_False.
    + by rewrite IH.
Qed.

Lemma PyDict_update_update {V : Type} (d : list (Z * V)) (k : Z) (v v' : V) :
  PyDict.update (PyDict.update d k v) k v' = PyDict.update d k v'.
Proof.
  induction d as [|[k0 v0] d IH]; simpl.
  - by rewrite decide_True.
  - destruct (decide (k0 = k)) as [->|Hne]; simpl.
    + by rewrite decide_True.
    + by rewrite decide_False, IH.
Qed.

Lemma node_players_set_eq (node : node_ref) (ps : list (Z * Player.t)) (w : World) :
  is_Some (heap w !! node) →
  node_players (set_node_players node ps w) node = ps.
Proof.
  intros [nd Hnd]. unfold node_players, set_node_players. simpl.
  by rewrite list_lookup_alter_eq, Hnd.
Qed.

Lemma node_players_set_ne (node node' : node_ref) (ps : list (Z * Player.t))
    (w : World) :
  node ≠ node' →
  node_players (set_node_players node ps w) node' = node_players w node'.
Proof.
  intros Hne. unfold node_players, set_node_players. simpl.
  by rewrite list_lookup_alter_ne.
Qed.

Lemma heap_set_node_players_is_Some (node node' : node_ref)
    (ps : list (Z * Player.t)) (w : World) :
  is_Some (heap (set_node_players node ps w) !! node') ↔ is_Some (heap w !! node').
Proof.
  unfold set_node_players. simpl.
  rewrite !lookup_lt_is_Some, length_alter. done.
Qed.

Lemma node_players_call (c : Call) (w : World) (node : node_ref) :
  node_players (call c w) node = node_players w node.
Proof. done. Qed.

(** One round of the loop, for a key of the failing node and a replacement
    node that is another object, when the calls of the round return. *)
Lemma failover_player_migrates (outcome : list Call → Call → result unit)
    (self new_node : node_ref) (g : Z)
    (p : Player.t) (rest : list (Z * Player.t)) (w : World) :
  self ≠ new_node →
  is_Some (heap w !! self) →
  is_Some (heap w !! new_node) →
  PyDict.pop (node_players w self) g = Some (p, rest) →
  (∀ h c, c ∈ migration_calls new_node g p → outcome h c = Ok tt) →
  ∃ w', failover_player outcome self new_node g w = (Ok tt, w') ∧
        node_players w' self = rest ∧
        node_players w' new_node
          = PyDict.update (node_players w new_node) g (migrated new_node p) ∧
        calls w' = calls w ++ migration_calls new_node g p ∧
        manager w' = manager w ∧
        (∀ n, is_Some (heap w' !! n) ↔ is_Some (heap w !! n)).
Proof.
  intros Hne Hself Hnew Hpop Hok. unfold failover_player, invoke. rewrite Hpop.
  unfold migration_calls, migrated in *.
  change (Player.is_playing (Player.set_node new_node p)) with (Player.is_playing p).
  change (Player.previous (Player.set_node new_node p)) with (Player.previous p).
  change (Player._prev_position (Player.set_node new_node p))
    with (Player._prev_position p).
  change (Player.channel_id (Player.set_node new_node p)) with (Player.channel_id p).
  set (w1 := set_node_players self rest w).
  assert (is_Some (heap w1 !! new_node)) as Hnew1
    by (by apply heap_set_node_players_is_Some).
  assert (node_players w1 new_node = node_players w new_node) as Hps1
    by (by apply node_players_set_ne).
  assert (node_players w1 self = rest) as Hself1
    by (by apply node_players_set_eq).
  set (p' := Player.set_node new_node p) in *.
  set (w2 := set_node_players new_node (PyDict.update (node_players w1 new_node) g p') w1).
  assert (node_players w2 new_node = PyDict.update (node_players w new_node) g p') as Hps2.
  { unfold w2. rewrite node_players_set_eq by done. by rewrite Hps1. }
  assert (node_players w2 self = rest) as Hself2.
  { unfold w2. rewrite node_players_set_ne by done. done. }
  assert (∀ n, is_Some (heap w2 !! n) ↔ is_Some (heap w !! n)) as Hheap2.
  { intros n. unfold w2, w1. by rewrite !heap_set_node_players_is_Some. }
  rewrite (Hok _ (_get_websocket g)) by among_calls.
  rewrite (Hok _ (voice_state g None)) by among_calls.
  destruct (Player.is_playing p).
  - rewrite (Hok _ (connect p' (Player.channel_id p))) by among_calls.
    rewrite (Hok _ (play _)) by among_calls.
    rewrite (Hok _ (seek _ _)) by among_calls.
    eexists; (split; [reflexivity|]).
    rewrite !node_players_call.
    set (p'' := Player.queue_insert_front (Player.previous p) p').
    set (w3 := call (connect p' (Player.channel_id p))
                 (call (voice_state g None) (call (_get_websocket g) w2))).
    assert (node_players w3 new_node = node_players w2 new_node) as Hps3 by done.
    split; [|split; [|split; [|split]]].
    + rewrite node_players_set_ne by done. unfold w3.
      by rewrite !node_players_call.
    + rewrite node_players_set_eq.
      * rewrite Hps2. apply PyDict_update_update.
      * unfold w3. apply Hheap2. by apply Hnew.
    + simpl. rewrite <- !app_assoc. done.
    + done.
    + intros n. rewrite <- Hheap2. unfold call. simpl.
      by rewrite !lookup_lt_is_Some, length_alter.
  - eexists; (split; [reflexivity|]).
    rewrite !node_players_call. repeat split; try done; try apply Hheap2.
    simpl. by rewrite <- !app_assoc.
Qed.

Lemma node_players_alter_ready (w w' : World) (node node' : node_ref) (b : bool) :
  heap w' = alter (LavalinkNode.set_ready b) node' (heap w) →
  node_players w' node = node_players w node.
Proof.
  intros Hheap. unfold node_players. rewrite Hheap.
  destruct (decide (node' = node)) as [->|Hne].
  - rewrite list_lookup_alter_eq. by destruct (heap w !! node).
  - by rewrite list_lookup_alter_ne.
Qed.

Lemma migration_trace_cons (new_node : node_ref) (g : Z) (p : Player.t)
    (source : list (Z * Player.t)) :
  migration_trace new_node ((g, p) :: source)
    = migration_calls new_node g p ++ migration_trace new_node source.
Proof. done. Qed.

(** C3, as amended: node A owns the sessions g1, playing track T at position
    P, and g2, idle, and B is the node that heads [nodes] once A is demoted.
    The demotion of A moves no session and calls no collaborator.  When the
    failover procedure of A is run after it and none of its calls raises, A
    is left without sessions and both sessions sit in the dictionary of B
    with B as their node; for g1 the gateway connection is looked up and the
    voice connection is torn down, then [connect] is called with its channel,
    T is inserted at the front of its queue, [play] is called and then
    [seek(P)]; for g2 the only calls are the lookup and the teardown. *)
Theorem failover_scenario (outcome : list Call → Call → result unit)
    (A B : node_ref) (g1 g2 : Z) (p1 p2 : Player.t)
    (T : Track) (P : Z) (rest : list node_ref) (w : World) :
  A ∈ NodeManager.nodes (manager w) →
  py_remove A (NodeManager.nodes (manager w)) = B :: rest →
  A ≠ B →
  is_Some (heap w !! B) →
  g1 ≠ g2 →
  node_players w A = [(g1, p1); (g2, p2)] →
  Player.is_playing p1 = true →
  Player.previous p1 = Some T →
  Player._prev_position p1 = P →
  Player.is_playing p2 = false →
  (∀ h c, c ∈ migration_trace B [(g1, p1); (g2, p2)] → outcome h c = Ok tt) →
  let p1_B := Player.set_node B p1 in
  let p1' := Player.queue_insert_front (Some T) p1_B in
  let p2' := Player.set_node B p2 in
  let w0 := on_node_disabled A w in
  NodeManager.nodes (manager w0) = B :: rest ∧
  node_players w0 A = [(g1, p1); (g2, p2)] ∧
  node_players w0 B = node_players w B ∧
  calls w0 = calls w ∧
  ∃ w', manage_failover outcome A w0 = (Ok tt, w') ∧
        NodeManager.nodes (manager w') = B :: rest ∧
        node_players w' A = [] ∧
        PyDict.get (node_players w' B) g1 = Some p1' ∧
        PyDict.get (node_players w' B) g2 = Some p2' ∧
        Player.node p1' = B ∧
        Player.queue p1' = Some T :: Player.queue p1 ∧
        Player.node p2' = B ∧
        Player.queue p2' = Player.queue p2 ∧
        calls w' = calls w ++
          [_get_websocket g1; voice_state g1 None;
           connect p1_B (Player.channel_id p1); play p1'; seek p1' P;
           _get_websocket g2; voice_state g2 None].
Proof.
  intros HA Hrem Hne HB Hg Hps Hplay1 Hprev1 Hpos1 Hplay2 Hok p1_B p1' p2' w0.
  assert (is_Some (heap w !! A)) as HA'.
  { unfold node_players in Hps. by destruct (heap w !! A). }
  assert (heap w0 = alter (LavalinkNode.set_ready false) A (heap w)
          ∧ NodeManager.nodes (manager w0) = B :: rest
          ∧ calls w0 = calls w) as (Hheap & Hnodes & Hcalls).
  { unfold w0. rewrite (on_node_disabled_online A w HA), Hrem. done. }
  assert (node_players w0 A = [(g1, p1); (g2, p2)]) as Hps0.
  { rewrite <- Hps. by apply (node_players_alter_ready w w0 A A false). }
  assert (node_players w0 B = node_players w B) as HpsB0
    by (by apply (node_players_alter_ready w w0 B A false)).
  assert (∀ n, is_Some (heap w0 !! n) ↔ is_Some (heap w !! n)) as Hheap0.
  { intros n. rewrite Hheap. by rewrite !lookup_lt_is_Some, length_alter. }
  do 4 (split; [done|]).
  unfold manage_failover. rewrite Hnodes, Hps0.
  cbn [PyDict.keys fmap list_fmap fst failover_loop].
  destruct (failover_player_migrates outcome A B g1 p1 [(g2, p2)] w0)
    as (w1 & -> & HpsA1 & HpsB1 & Hcalls1 & Hm1 & Hheap1);
    [done|by apply Hheap0|by apply Hheap0| | |].
  { rewrite Hps0. simpl. by rewrite decide_True. }
  { intros h c Hc. apply Hok. rewrite migration_trace_cons.
    apply elem_of_app. by left. }
  destruct (failover_player_migrates outcome A B g2 p2 [] w1)
    as (w2 & -> & HpsA2 & HpsB2 & Hcalls2 & Hm2 & Hheap2);
    [done|by apply Hheap1, Hheap0|by apply Hheap1, Hheap0| | |].
  { rewrite HpsA1. simpl. by rewrite decide_True. }
  { intros h c Hc. apply Hok. rewrite !migration_trace_cons.
    apply elem_of_app. right. apply elem_of_app. by left. }
  exists w2. split; [done|].
  assert (migrated B p1 = p1') as Hmig1.
  { unfold migrated. by rewrite Hplay1, Hprev1. }
  assert (migrated B p2 = p2') as Hmig2.
  { unfold migrated. by rewrite Hplay2. }
  split; [by rewrite Hm2, Hm1|].
  split; [done|].
  rewrite HpsB2, HpsB1, Hmig1, Hmig2.
  split.
  { rewrite PyDict_get_update_ne by congruence. apply PyDict_get_update_eq. }
  split; [apply PyDict_get_update_eq|].
  do 4 (split; [done|]).
  rewrite Hcalls2, Hcalls1, Hcalls. unfold migration_calls.
  rewrite Hmig1, Hplay1, Hplay2, Hpos1, <- app_assoc. done.
Qed.

Lemma failover_scenario_witness :
  let w0 := on_node_disabled 0 failover_example in
  NodeManager.nodes (manager w0) = [1] ∧
  node_players w0 0 = [(1%Z, playing_session); (2%Z, Player.fresh 0)] ∧
  node_players w0 1 = node_players failover_example 1 ∧
  calls w0 = calls failover_example ∧
  ∃ w', manage_failover all_return 0 w0 = (Ok tt, w') ∧
        NodeManager.nodes (manager w') = [1] ∧
        node_players w' 0 = [] ∧
        PyDict.get (node_players w' 1) 1%Z
          = Some (Player.queue_insert_front (Some "T")
                    (Player.set_node 1 playing_session)) ∧
        PyDict.get (node_players w' 1) 2%Z
          = Some (Player.set_node 1 (Player.fresh 0)) ∧
        Player.node (Player.queue_insert_front (Some "T")
                       (Player.set_node 1 playing_session)) = 1 ∧
        Player.queue (Player.queue_insert_front (Some "T")
                        (Player.set_node 1 playing_session))
          = [Some "T"; Some "U"] ∧
        Player.node (Player.set_node 1 (Player.fresh 0)) = 1 ∧
        Player.queue (Player.set_node 1 (Player.fresh 0)) = [] ∧
        calls w' = calls failover_example ++
          [_get_websocket 1; voice_state 1 None;
           connect (Player.set_node 1 playing_session) (Some 7%Z);
           play (Player.queue_insert_front (Some "T")
                   (Player.set_node 1 playing_session));
           seek (Player.queue_insert_front (Some "T")
                   (Player.set_node 1 playing_session)) 1500;
           _get_websocket 2; voice_state 2 None].
Proof.
  apply (failover_scenario all_return 0 1 1%Z 2%Z playing_session (Player.fresh 0)
           "T" 1500%Z [] failover_example); try reflexivity; try lia.
  - apply (bool_decide_unpack _). by vm_compute.
  - eexists. by vm_compute.
Defined.

(** C3, counterexample: node 0 owns a playing and an idle session and node 1
    is online.  Demoting node 0 leaves both sessions in its dictionary and
    none in that of node 1, and no collaborator is called: [on_node_disabled]
    schedules the hook event and nothing else.  When node 1 is online behind
    node 2, the failover procedure of node 0, run after the demotion, moves
    the sessions to node 2 and none to node 1.  When the voice bridge raises
    for guild 1, the procedure ends with that exception: the session of guild
    1 sits in the dictionary of node 1 without having been reconnected and the
    session of guild 2 is still in that of node 0. *)
Lemma demotion_moves_no_session :
  let w0 := on_node_disabled 0 failover_example in
  NodeManager.nodes (manager failover_example) = [0; 1] ∧
  NodeManager.nodes (manager w0) = [1] ∧
  node_players w0 0 = [(1%Z, playing_session); (2%Z, Player.fresh 0)] ∧
  node_players w0 1 = [] ∧
  calls w0 = [] ∧
  loop_tasks w0 = loop_tasks failover_example ++ [NodeDisabledEvent 0] ∧
  (let v0 := on_node_disabled 0 failover_behind_first in
   NodeManager.nodes (manager failover_behind_first) = [2; 0; 1] ∧
   ∃ v', manage_failover all_return 0 v0 = (Ok tt, v') ∧
         node_players v' 0 = [] ∧
         node_players v' 1 = [] ∧
         PyDict.keys (node_players v' 2) = [1%Z; 2%Z]) ∧
  ∃ w', manage_failover voice_bridge_down 0 w0
          = (Raise (Exception "voice bridge down"), w') ∧
        node_players w' 0 = [(2%Z, Player.fresh 0)] ∧
        node_players w' 1 = [(1%Z, Player.set_node 1 playing_session)] ∧
        calls w' = [_get_websocket 1; voice_state 1 None].
Proof.
  repeat split; try (by vm_compute); eexists; by vm_compute.
Qed.

(** ** Hook dispatch *)

Section DispatchProperties.
Context {Env : Type}.
Variable hook_name : hook_ref → result string.
Variable iscoroutinefunction : hook_ref → bool.
Variable hook_call :
  hook_ref → NodeEvent → Env * list hook_ref → result unit * (Env * list hook_ref).

Lemma invoke_hook_call (hook : hook_ref) (event : NodeEvent)
    (st : Env * list hook_ref) :
  invoke_hook iscoroutinefunction hook_call hook event st
  = hook_call hook event st.
Proof. unfold invoke_hook. by destruct (iscoroutinefunction hook). Qed.

Lemma dispatch_loop_S (fuel i : nat) (event : NodeEvent)
    (st : Env * list hook_ref) (log : list string) :
  dispatch_loop hook_name iscoroutinefunction hook_call (S fuel) i event st log
  = match st.2 !! i with
    | None => Some (Ok tt, (st, log))
    | Some hook =>
        match invoke_hook iscoroutinefunction hook_call hook event st with
        | (Ok _, st') =>
            dispatch_loop hook_name iscoroutinefunction hook_call fuel (S i) event st' log
        | (Raise e, st') =>
            match except_Exception hook_name hook e log with
            | (Ok _, log') =>
                dispatch_loop hook_name iscoroutinefunction hook_call
                  fuel (S i) event st' log'
            | (Raise e', log') => Some (Raise e', (st', log'))
            end
        end
    end.
Proof. done. Qed.

(** When the hooks leave the list of hooks alone, raise nothing but
    instances of [Exception] and have a name each, the loop that stands at
    position [length called] of the list [called ++ rest] calls the hooks of
    [rest] one after the other and returns. *)
Lemma dispatch_loop_runs_all (called rest : list hook_ref) (event : NodeEvent)
    (env : Env) (log : list string) :
  keeps_hooks hook_call →
  raises_Exception_only hook_call →
  (∀ hook, hook ∈ rest → ∃ name, hook_name hook = Ok name) →
  dispatch_loop hook_name iscoroutinefunction hook_call
    (S (length rest)) (length called) event (env, called ++ rest) log
  = Some (Ok tt,
          ((hooks_effect hook_call (called ++ rest) rest event env, called ++ rest),
           log ++ hooks_warnings hook_name hook_call (called ++ rest) rest event env)).
Proof.
  intros Hkeep Hexc. revert called env log.
  induction rest as [|hook rest IH]; intros called env log Hnames.
  - rewrite dispatch_loop_S. cbn [snd]. rewrite app_nil_r.
    rewrite lookup_ge_None_2 by done. simpl. by rewrite app_nil_r.
  - rewrite dispatch_loop_S. cbn [length snd]. rewrite list_lookup_middle by done.
    rewrite invoke_hook_call.
    pose proof (Hkeep hook event env (called ++ hook :: rest)) as Hk.
    pose proof (Hexc hook event (env, called ++ hook :: rest)) as He.
    cbn [hooks_warnings]. unfold hooks_effect. cbn [foldl].
    destruct (hook_call hook event (env, called ++ hook :: rest))
      as [[[]|e] [env' hooks']]; simpl in Hk, He; subst hooks'; cbn [fst snd].
    + replace (S (length called)) with (length (called ++ [hook]))
        by (rewrite length_app; simpl; lia).
      replace (called ++ hook :: rest) with ((called ++ [hook]) ++ rest)
        by (by rewrite <- app_assoc).
      rewrite IH; [done|]. intros h Hh. apply Hnames. by right.
    + unfold except_Exception. rewrite (He e eq_refl).
      destruct (Hnames hook) as [name ->]; [by left|].
      replace (S (length called)) with (length (called ++ [hook]))
        by (rewrite length_app; simpl; lia).
      replace (called ++ hook :: rest) with ((called ++ [hook]) ++ rest)
        by (by rewrite <- app_assoc).
      rewrite IH.
      * by rewrite <- (app_assoc log).
      * intros h Hh. apply Hnames. by right.
Qed.

Lemma recorded_keeps_hooks :
  keeps_hooks hook_call → keeps_hooks (recorded hook_call).
Proof. intros Hkeep hook event [env trace] hooks. apply Hkeep. Qed.

Lemma recorded_raises_Exception_only :
  raises_Exception_only hook_call → raises_Exception_only (recorded hook_call).
Proof. intros Hexc hook event [[env trace] hooks] e. apply Hexc. Qed.

Lemma hooks_effect_recorded (registered hooks : list hook_ref) (event : NodeEvent)
    (env : Env) (trace : list (hook_ref * NodeEvent)) :
  hooks_effect (recorded hook_call) registered hooks event (env, trace)
  = (hooks_effect hook_call registered hooks event env,
     trace ++ ((λ hook, (hook, event)) <$> hooks)).
Proof.
  unfold hooks_effect. revert env trace.
  induction hooks as [|hook hooks IH]; intros env trace.
  - simpl. by rewrite app_nil_r.
  - cbn [foldl fmap list_fmap]. unfold recorded at 2. cbn [fst snd].
    rewrite IH. by rewrite <- app_assoc.
Qed.
End DispatchProperties.

(** A hook that unregisters itself while it is called makes the loop pass
    over the hook registered after it: hook 2 of the example is called, the
    list shrinks to [[1]], and the loop, now at position 1, is past its end;
    the counting hook 1, still registered, has not been called. *)
Lemma dispatch_skips_hook_after_leaving_hook (fuel : nat) :
  let w := run [op_register_node_hook 2; op_register_node_hook 1] (init 0 true) in
  NodeManager._hooks (manager w) = [2; 1] ∧
  _dispatch_node_event example_hook_name (λ _, false) (recorded example_hook_call)
    (S (S fuel)) (manager w) (NodeReadyEvent 5) (0, []) []
  = Some (Ok tt, (((0, [(2, NodeReadyEvent 5)]), [1]), [])).
Proof. split; reflexivity. Qed.

(** C8, evaluated at the failing input: the registered hooks are, in this
    order, hook 0, a [functools.partial] that raises an [Exception], and the
    counting hook 1.  The handler of the exception reads [hook.__name__],
    which raises [AttributeError]: that exception leaves
    [_dispatch_node_event], no warning has been logged, and hook 1 has not
    been called.  With a named hook that raises in the place of hook 0 the
    warning is logged and hook 1 is called. *)
Theorem dispatch_leaves_through_handler (fuel : nat) :
  let w := run [op_register_node_hook 0; op_register_node_hook 1] (init 0 true) in
  let v := run [op_register_node_hook 3; op_register_node_hook 1] (init 0 true) in
  reachable w ∧
  NodeManager._hooks (manager w) = [0; 1] ∧
  _dispatch_node_event example_hook_name (λ _, false) (recorded example_hook_call)
    (S fuel) (manager w) (NodeReadyEvent 5) (0, []) []
  = Some (Raise (AttributeError
                   "'functools.partial' object has no attribute '__name__'"),
          (((0, [(0, NodeReadyEvent 5)]), [0; 1]), [])) ∧
  NodeManager._hooks (manager v) = [3; 1] ∧
  _dispatch_node_event example_hook_name (λ _, false) (recorded example_hook_call)
    (S (S (S fuel))) (manager v) (NodeReadyEvent 5) (0, []) []
  = Some (Ok tt,
          (((1, [(3, NodeReadyEvent 5); (1, NodeReadyEvent 5)]), [3; 1]),
           [hook_warning "failing" (Exception "boom")])).
Proof.
  split; [apply reachable_run; constructor|]. repeat split; reflexivity.
Qed.

(** ** Selection in reachable states *)

(** With at least one node online and a default index of at least
    [-len(nodes)], [get_rest] returns an online node. *)
Lemma get_rest_returns_node (w : World) :
  reachable w →
  NodeManager.nodes (manager w) ≠ [] →
  (- Z.of_nat (length (NodeManager.nodes (manager w)))
   ≤ NodeManager.default_node_index (manager w))%Z →
  ∃ n m', get_rest (manager w) = (Ok (Some n), m') ∧
          n ∈ NodeManager.nodes (manager w).
Proof.
  intros Hw Hne Hdef.
  destruct (NodeManager.round_robin (manager w)) eqn:Hrr.
  - destruct (get_rest_round_robin (manager w)) as (n & Hn & Hget); try done.
    { apply (reachable_cursor_in_registered w Hw). }
    exists n. eexists. split; [exact Hget|]. by eapply list_elem_of_lookup_2.
  - destruct (get_rest_fixed_default (manager w)) as (n & Hn & Hget); try done.
    by exists n, (manager w).
Qed.

(** C7, evaluated at the failing input: in a registry configured with
    default index -2 and one node online, [get_rest] raises [IndexError] at
    [self.nodes[self.default_node_index]] although [nodes] is not empty. *)
Theorem get_rest_default_minus_two :
  reachable one_node_default_minus_two ∧
  let m := manager one_node_default_minus_two in
  NodeManager.default_node_index m = (-2)%Z ∧
  NodeManager.nodes m = [0] ∧
  get_rest m = (Raise IndexError, m).
Proof. split; [apply reachable_run; constructor|by vm_compute]. Qed.

(** C1, evaluated at the failing input: in a registry configured with
    default index -3, with round-robin enabled, two nodes online and the
    cursor at 0, the first of the two selections raises [IndexError] at
    [self.nodes[self.default_node_index]], a line that the round-robin branch
    has no use for: no node is returned and the cursor stays at 0. *)
Theorem get_rest_round_robin_default_minus_three :
  reachable two_nodes_default_minus_three ∧
  let m := manager two_nodes_default_minus_three in
  NodeManager.round_robin m = true ∧
  NodeManager.default_node_index m = (-3)%Z ∧
  NodeManager.nodes m = [0; 1] ∧
  NodeManager._rr_pos m = 0%Z ∧
  get_rest m = (Raise IndexError, m) ∧
  get_rest_n 2 m = (Raise IndexError, m).
Proof. split; [apply reachable_run; constructor|by vm_compute]. Qed.

(** ** Membership in the two collections *)

Lemma py_remove_Permutation `{EqDecision A} (x : A) (l : list A) :
  x ∈ l → l ≡ₚ x :: py_remove x l.
Proof.
  induction l as [|y l IH]; simpl; intros Hx; [by apply elem_of_nil in Hx|].
  destruct (decide (y = x)) as [->|Hne]; [done|].
  apply elem_of_cons in Hx as [?|Hx]; [congruence|].
  rewrite (IH Hx) at 1. apply Permutation_swap.
Qed.

Lemma failover_loop_heap_length (outcome : list Call → Call → result unit)
    (self new_node : node_ref) (gs : list Z) (w : World) :
  length (heap (failover_loop outcome self new_node gs w).2) = length (heap w).
Proof.
  apply (failover_loop_preserves (λ w w', length (heap w') = length (heap w)));
    [done|congruence|].
  clear gs w. intros g w.
  failover_player_cases outcome self g;
    unfold call, set_node_players; simpl; by rewrite ?length_alter.
Qed.

Lemma step_heap_length (o : op) (w : World) :
  (length (heap w) ≤ length (heap (step o w)))%nat.
Proof.
  destruct o as [? ? ? ? ? ? ?|node|node| |guild| | |node]; simpl.
  - rewrite length_app. simpl. lia.
  - unfold set_online.
    destruct (decide (node ∈ NodeManager.offline_nodes (manager w))) as [Hin|Hnin].
    + rewrite (on_node_ready_offline node w Hin). simpl. by rewrite length_alter.
    + by rewrite on_node_ready_absent.
  - unfold set_offline.
    destruct (decide (node ∈ NodeManager.nodes (manager w))) as [Hin|Hnin].
    + rewrite (on_node_disabled_online node w Hin).
      destruct (py_remove node _); simpl; by rewrite length_alter.
    + by rewrite on_node_disabled_absent.
  - done.
  - unfold get_by_region, players_get.
    repeat case_match; simplify_eq; simpl; try done;
      by rewrite length_alter.
  - unfold register_node_hook. by case_bool_decide.
  - unfold unregister_node_hook. by case_bool_decide.
  - unfold manage_failover. destruct (NodeManager.nodes (manager w)); [done|].
    by rewrite failover_loop_heap_length.
Qed.

Lemma step_registry_wf (o : op) (w : World) :
  registry_wf w → registry_wf (step o w).
Proof.
  intros [Hnd Hheap]. pose proof (step_heap_length o w) as Hlen.
  destruct o as [? ? ? ? ? ? ?|node|node| | | | |];
    try (match goal with
         | |- registry_wf (step ?o _) =>
             destruct (step_same_registry o w I) as (Hn & Ho & _ & _)
         end;
         unfold registry_wf; rewrite Hn, Ho; split; [done|];
         intros n Hin; specialize (Hheap n Hin); lia).
  - unfold registry_wf. simpl. rewrite app_assoc. split.
    + apply NoDup_app. split; [done|]. split; [|apply NoDup_singleton].
      intros n Hin ->%list_elem_of_singleton. specialize (Hheap _ Hin). lia.
    + intros n [Hin| ->%list_elem_of_singleton]%elem_of_app.
      * specialize (Hheap n Hin). rewrite length_app. simpl. lia.
      * rewrite length_app. simpl. lia.
  - simpl in *. unfold set_online in *.
    destruct (decide (node ∈ NodeManager.offline_nodes (manager w))) as [Hin|Hnin].
    + revert Hlen. rewrite (on_node_ready_offline node w Hin).
      unfold registry_wf. simpl. intros Hlen.
      assert ((NodeManager.nodes (manager w) ++ [node])
                ++ py_remove node (NodeManager.offline_nodes (manager w))
              ≡ₚ NodeManager.nodes (manager w)
                   ++ NodeManager.offline_nodes (manager w)) as Hperm.
      { rewrite <- app_assoc. apply Permutation_app_head. simpl.
        symmetry. by apply py_remove_Permutation. }
      split; [by rewrite Hperm|].
      intros n Hn. rewrite Hperm in Hn. specialize (Hheap n Hn). lia.
    + rewrite on_node_ready_absent by done. by split.
  - simpl in *. unfold set_offline in *.
    destruct (decide (node ∈ NodeManager.nodes (manager w))) as [Hin|Hnin].
    + revert Hlen. rewrite (on_node_disabled_online node w Hin).
      assert (py_remove node (NodeManager.nodes (manager w))
                ++ NodeManager.offline_nodes (manager w) ++ [node]
              ≡ₚ NodeManager.nodes (manager w)
                   ++ NodeManager.offline_nodes (manager w)) as Hperm.
      { rewrite app_assoc, <- Permutation_cons_append.
        change (node :: ?a ++ ?b) with ((node :: a) ++ b).
        apply Permutation_app_tail.
        symmetry. by apply py_remove_Permutation. }
      unfold registry_wf.
      destruct (py_remove node (NodeManager.nodes (manager w))) as [|d rest];
        simpl heap; simpl manager; cbn [NodeManager.nodes NodeManager.offline_nodes];
        intros Hlen; (split; [by rewrite Hperm|]);
        intros n Hn; rewrite Hperm in Hn; specialize (Hheap n Hn); lia.
    + rewrite on_node_disabled_absent by done. by split.
  - unfold registry_wf. simpl.
    destruct (get_rest_frame (manager w)) as (-> & -> & _). by split.
Qed.

(** In every reachable state a node is listed at most once in [nodes] and
    [offline_nodes] taken together: it is online or offline, never both, and
    the selections of a round-robin walk are pairwise different nodes. *)
Lemma reachable_registry_wf (w : World) : reachable w → registry_wf w.
Proof.
  induction 1 as [d rr|o w _ IH].
  - split; simpl; [constructor|]. by intros n ?%elem_of_nil.
  - by apply step_registry_wf.
Qed.

Lemma reachable_nodes_NoDup (w : World) :
  reachable w → NoDup (NodeManager.nodes (manager w)).
Proof.
  intros Hw. destruct (reachable_registry_wf w Hw) as [Hnd _].
  by apply NoDup_app in Hnd as (? & _ & _).
Qed.

(** * Further properties *)

(** ** Region sets: validation *)

(** X1: a region list is accepted exactly when all its identifiers are in
    the catalogue. *)
Theorem Regions_init_ok_iff_valid (l : list string) :
  (∃ R, Regions.__init__ (Some l) = Ok R) ↔ Forall (λ r, r ∈ DISCORD_REGIONS) l.
Proof.
  split.
  - intros [R HR]. destruct (decide (Forall (λ r, r ∈ DISCORD_REGIONS) l)) as [|Hn];
      [done|exfalso].
    destruct (validate_invalid l Hn) as (r & _ & _ & Hv).
    unfold Regions.__init__ in HR. destruct l as [|r0 l].
    + apply Hn. constructor.
    + by rewrite Hv in HR.
  - intros Hl. unfold Regions.__init__. destruct l as [|r0 l].
    + rewrite validate_valid; [by eexists|].
      apply Forall_forall. auto.
    + rewrite validate_valid by done. by eexists.
Qed.

(** X2: the construction stops at the first identifier that is not in the
    catalogue and raises [RegionNotFound] with that identifier in its
    message, whatever follows it in the list. *)
Theorem Regions_init_first_invalid (pre post : list string) (r : string) :
  Forall (λ r, r ∈ DISCORD_REGIONS) pre →
  r ∉ DISCORD_REGIONS →
  Regions.__init__ (Some (pre ++ r :: post))
  = Raise (RegionNotFound (String.append "Invalid region: " r)).
Proof.
  intros Hpre Hr. unfold Regions.__init__.
  assert (Regions.validate (pre ++ r :: post)
          = Raise (RegionNotFound (String.append "Invalid region: " r))) as Hv.
  { induction Hpre as [|r0 pre Hr0 _ IH]; simpl.
    - by rewrite bool_decide_eq_false_2.
    - by rewrite bool_decide_eq_true_2. }
  destruct (pre ++ r :: post) as [|r0 l] eqn:Hl.
  - by destruct pre.
  - by rewrite Hv.
Qed.

Lemma Regions_init_first_invalid_witness :
  Regions.__init__ (Some (["japan"] ++ "mars" :: ["venus"; "sydney"]))
  = Raise (RegionNotFound "Invalid region: mars").
Proof.
  apply (Regions_init_first_invalid ["japan"] ["venus"; "sydney"] "mars").
  - apply (bool_decide_unpack _). by vm_compute.
  - apply (bool_decide_unpack _). by vm_compute.
Defined.

(** ** Region sets: the named sets *)

(** X3: every named region set is constructed without [RegionNotFound];
    [all] iterates the whole catalogue; the five continent sets share the
    catalogue among them without overlap, and so do the two halves. *)
Theorem Regions_named_sets :
  forallb constructed
    [Regions.all; Regions.eu; Regions.us; Regions.america; Regions.africa;
     Regions.asia; Regions.oceania; Regions.half_one; Regions.half_two;
     Regions.third_one; Regions.third_two; Regions.third_three] = true ∧
  regions_of Regions.all = DISCORD_REGIONS ∧
  regions_of Regions.eu ++ regions_of Regions.america ++ regions_of Regions.africa
    ++ regions_of Regions.asia ++ regions_of Regions.oceania ≡ₚ DISCORD_REGIONS ∧
  regions_of Regions.half_one ++ regions_of Regions.half_two ≡ₚ DISCORD_REGIONS.
Proof.
  split; [by vm_compute|]. split; [by vm_compute|].
  split; apply (bool_decide_unpack _); by vm_compute.
Qed.

(** X4: the three thirds do not overlap but do not cover the catalogue:
    "brazil" is in none of them, and [third_three] is the same list as [us]
    (it lacks the "brazil" of [america]). *)
Theorem Regions_thirds_leave_out_brazil :
  regions_of Regions.third_one ++ regions_of Regions.third_two
    ++ regions_of Regions.third_three ++ ["brazil"] ≡ₚ DISCORD_REGIONS ∧
  ("brazil" ∉ regions_of Regions.third_one ++ regions_of Regions.third_two
                ++ regions_of Regions.third_three) ∧
  regions_of Regions.third_three = regions_of Regions.us ∧
  regions_of Regions.america = regions_of Regions.third_three ++ ["brazil"].
Proof.
  split; [apply (bool_decide_unpack _); by vm_compute|].
  split; [apply (bool_decide_unpack _); by vm_compute|by vm_compute].
Qed.

(** ** Membership and readiness *)

Lemma py_remove_NoDup `{EqDecision A} (x : A) (l : list A) :
  NoDup l → x ∈ l → (x ∉ py_remove x l) ∧ NoDup (py_remove x l).
Proof.
  intros Hnd Hx. rewrite (py_remove_Permutation x l Hx) in Hnd.
  by apply NoDup_cons in Hnd.
Qed.

Lemma py_remove_elem_of `{EqDecision A} (x y : A) (l : list A) :
  y ∈ py_remove x l → y ∈ l.
Proof.
  induction l as [|z l IH]; simpl; [done|].
  destruct (decide (z = x)); [by right|].
  intros [->|Hy]%elem_of_cons; [by left|right; by apply IH].
Qed.

Lemma node_ready_alter_ready (w w' : World) (node n : node_ref) (b : bool) :
  heap w' = alter (LavalinkNode.set_ready b) node (heap w) →
  node_ready w' n =
    if decide (n = node ∧ (node < length (heap w))%nat) then b else node_ready w n.
Proof.
  intros Hheap. unfold node_ready. rewrite Hheap.
  destruct (decide (node = n)) as [->|Hne].
  - rewrite list_lookup_alter_eq.
    destruct (heap w !! n) as [nd|] eqn:Hn; simpl.
    + rewrite decide_True; [done|]. split; [done|]. by eapply lookup_lt_Some.
    + rewrite decide_False; [done|]. intros [_ Hlt].
      apply lookup_ge_None in Hn. lia.
  - rewrite list_lookup_alter_ne by done.
    rewrite decide_False; [done|]. intros [-> _]. done.
Qed.

Lemma node_ready_alter_players (w w' : World) (node n : node_ref)
    (ps : list (Z * Player.t)) :
  heap w' = alter (LavalinkNode.set_players ps) node (heap w) →
  node_ready w' n = node_ready w n.
Proof.
  intros Hheap. unfold node_ready. rewrite Hheap.
  destruct (decide (node = n)) as [->|Hne].
  - rewrite list_lookup_alter_eq. by destruct (heap w !! n).
  - by rewrite list_lookup_alter_ne.
Qed.

Lemma failover_loop_node_ready (outcome : list Call → Call → result unit)
    (self new_node : node_ref) (gs : list Z) (w : World) (n : node_ref) :
  node_ready (failover_loop outcome self new_node gs w).2 n = node_ready w n.
Proof.
  apply (failover_loop_preserves (λ w w', node_ready w' n = node_ready w n));
    [done|congruence|].
  clear gs w. intros g w.
  failover_player_cases outcome self g; unfold call;
    repeat (erewrite node_ready_alter_players; [|reflexivity]); done.
Qed.

(** Operations other than [add], promotion and demotion leave the readiness
    signals alone. *)
Lemma step_readiness_frame (o : op) (w : World) (n : node_ref) :
  match o with
  | op_add _ _ _ _ _ _ _ | op_set_online _ | op_set_offline _ => False
  | _ => True
  end →
  NodeManager.ready (manager (step o w)) = NodeManager.ready (manager w) ∧
  node_ready (step o w) n = node_ready w n.
Proof.
  destruct o as [? ? ? ? ? ? ?|node|node| |guild|func|func|node]; intros []; simpl.
  - split; [|done]. unfold get_rest.
    destruct (NodeManager.nodes (manager w)) as [|n0 ns]; [done|].
    repeat match goal with
           | |- context [py_getitem ?l ?i] => destruct (py_getitem l i)
           | |- context [if ?b then _ else _] => destruct b eqn:?
           end; done.
  - rewrite get_by_region_manager. split; [done|].
    unfold get_by_region, players_get.
    repeat case_match; simplify_eq; simpl; try done;
      by erewrite node_ready_alter_players by reflexivity.
  - unfold register_node_hook. by case_bool_decide.
  - unfold unregister_node_hook. by case_bool_decide.
  - rewrite manage_failover_manager. split; [done|].
    unfold manage_failover. destruct (NodeManager.nodes (manager w)); [done|].
    apply failover_loop_node_ready.
Qed.

Lemma step_readiness_consistent (o : op) (w : World) :
  registry_wf w → readiness_consistent w → readiness_consistent (step o w).
Proof.
  intros Hwf [Hready Hnodes].
  pose proof (step_registry_wf o w Hwf) as [Hnd' _].
  destruct Hwf as [Hnd Hheap].
  destruct o as [? ? ? ? ? ? ?|node|node| | | | |];
    try (match goal with
         | |- readiness_consistent (step ?o _) =>
             destruct (step_same_registry o w I) as (Hn & Ho & _ & _);
             pose proof (λ n, step_readiness_frame o w n I) as Hfr
         end;
         unfold readiness_consistent; rewrite Hn, Ho, (proj1 (Hfr 0%nat));
         split; [done|]; intros n; rewrite (proj2 (Hfr n)); apply Hnodes).
  - (* add *)
    split; [done|]. intros n. unfold node_ready. simpl. split.
    + intros Hn. rewrite lookup_app_l.
      * by apply Hnodes.
      * apply Hheap, elem_of_app. by left.
    + intros [Hn| ->%list_elem_of_singleton]%elem_of_app.
      * rewrite lookup_app_l; [by apply Hnodes|].
        apply Hheap, elem_of_app. by right.
      * by rewrite list_lookup_middle.
  - (* on_node_ready *)
    simpl in *. unfold set_online in *.
    destruct (decide (node ∈ NodeManager.offline_nodes (manager w))) as [Hin|Hnin];
      [|by rewrite on_node_ready_absent].
    revert Hnd'. rewrite (on_node_ready_offline node w Hin).
    unfold readiness_consistent. simpl. intros Hnd'.
    assert (node < length (heap w))%nat as Hlt
      by (apply Hheap, elem_of_app; by right).
    split; [split; [intros _; by destruct (NodeManager.nodes (manager w))|done]|].
    intros n.
    erewrite (node_ready_alter_ready w _ node n true) by reflexivity.
    split.
    + intros [Hn| ->%list_elem_of_singleton]%elem_of_app.
      * case_decide; [done|]. by apply Hnodes.
      * by rewrite decide_True.
    + intros Hn. rewrite decide_False.
      * apply Hnodes. by eapply py_remove_elem_of.
      * intros [-> _]. apply NoDup_app in Hnd' as (_ & Hdisj & _).
        apply (Hdisj node); [|done]. apply elem_of_app. right. by left.
  - (* on_node_disabled *)
    simpl in *. unfold set_offline in *.
    destruct (decide (node ∈ NodeManager.nodes (manager w))) as [Hin|Hnin];
      [|by rewrite on_node_disabled_absent].
    assert (node < length (heap w))%nat as Hlt
      by (apply Hheap, elem_of_app; by left).
    assert (NodeManager.ready (manager w) = true) as Hr.
    { apply Hready. intros Hnil. rewrite Hnil in Hin. by apply elem_of_nil in Hin. }
    assert (∀ n, n ∈ py_remove node (NodeManager.nodes (manager w)) → n ≠ node) as Hne.
    { intros n Hn ->.
      apply NoDup_app in Hnd as (Hnd & _ & _).
      by destruct (py_remove_NoDup node _ Hnd Hin). }
    assert (node ∉ NodeManager.offline_nodes (manager w)) as Hoff.
    { apply NoDup_app in Hnd as (_ & Hdisj & _). by apply Hdisj. }
    rewrite (on_node_disabled_online node w Hin).
    unfold readiness_consistent.
    destruct (py_remove node (NodeManager.nodes (manager w))) as [|d rest] eqn:Hrem;
      simpl manager; cbn [NodeManager.nodes NodeManager.offline_nodes NodeManager.ready].
    + split; [done|]. intros n.
      erewrite (node_ready_alter_ready w _ node n false) by reflexivity.
      split; [by intros ?%elem_of_nil|].
      intros [Hn| ->%list_elem_of_singleton]%elem_of_app.
      * case_decide; [done|]. by apply Hnodes.
      * by rewrite decide_True.
    + split; [done|]. intros n.
      erewrite (node_ready_alter_ready w _ node n false) by reflexivity.
      split.
      * intros Hn. rewrite decide_False.
        -- apply Hnodes. apply (py_remove_elem_of node). by rewrite Hrem.
        -- intros [-> _]. by apply (Hne node).
      * intros [Hn| ->%list_elem_of_singleton]%elem_of_app.
        -- case_decide; [done|]. by apply Hnodes.
        -- by rewrite decide_True.
  - (* get_rest *)
    pose proof (λ n, step_readiness_frame op_get_rest w n I) as Hfr.
    simpl in *. destruct (get_rest_frame (manager w)) as (Hn & Ho & _).
    unfold readiness_consistent. simpl.
    rewrite Hn, Ho, (proj1 (Hfr 0%nat)). by split.
Qed.

Lemma reachable_readiness_consistent (w : World) :
  reachable w → readiness_consistent w.
Proof.
  induction 1 as [d rr|o w Hw IH].
  - split; [done|]. intros n. by split; intros ?%elem_of_nil.
  - apply step_readiness_consistent; [by apply reachable_registry_wf|done].
Qed.

(** X5: in every reachable state no node is listed twice in [nodes] or in
    [offline_nodes], no node is in both, and every listed node is an object
    that [add] created. *)
Theorem registry_membership_exclusive (w : World) :
  reachable w →
  NoDup (NodeManager.nodes (manager w)) ∧
  NoDup (NodeManager.offline_nodes (manager w)) ∧
  (∀ n, n ∈ NodeManager.nodes (manager w) →
        n ∉ NodeManager.offline_nodes (manager w)) ∧
  (∀ n, n ∈ NodeManager.nodes (manager w) ∨
        n ∈ NodeManager.offline_nodes (manager w) →
        is_Some (heap w !! n)).
Proof.
  intros Hw. destruct (reachable_registry_wf w Hw) as [Hnd Hheap].
  apply NoDup_app in Hnd as (Hn & Hdisj & Ho).
  split; [done|]. split; [done|]. split; [done|].
  intros n Hn'. apply lookup_lt_is_Some, Hheap, elem_of_app. done.
Qed.

Lemma registry_membership_exclusive_witness :
  NoDup (NodeManager.nodes (manager two_selections_then_demote)) ∧
  NoDup (NodeManager.offline_nodes (manager two_selections_then_demote)) ∧
  (∀ n, n ∈ NodeManager.nodes (manager two_selections_then_demote) →
        n ∉ NodeManager.offline_nodes (manager two_selections_then_demote)) ∧
  (∀ n, n ∈ NodeManager.nodes (manager two_selections_then_demote) ∨
        n ∈ NodeManager.offline_nodes (manager two_selections_then_demote) →
        is_Some (heap two_selections_then_demote !! n)).
Proof.
  apply (registry_membership_exclusive two_selections_then_demote).
  do 2 apply reachable_run. constructor.
Defined.

(** X6: in every reachable state the readiness signal of the cluster is set
    exactly when [nodes] is not empty; every node that iterating the manager
    yields has its own signal set and is not in [offline_nodes]; every node of
    [offline_nodes] has its signal clear. *)
Theorem readiness_signals (w : World) :
  reachable w →
  (NodeManager.ready (manager w) = true ↔ NodeManager.nodes (manager w) ≠ []) ∧
  ∀ n, (n ∈ NodeManager_iter (manager w) →
        node_ready w n = true ∧ n ∉ NodeManager.offline_nodes (manager w)) ∧
       (n ∈ NodeManager.offline_nodes (manager w) → node_ready w n = false).
Proof.
  intros Hw. destruct (reachable_readiness_consistent w Hw) as [Hready Hnodes].
  destruct (reachable_registry_wf w Hw) as [Hnd _].
  apply NoDup_app in Hnd as (_ & Hdisj & _).
  split; [done|]. intros n. split.
  - intros Hn. split; [by apply Hnodes|by apply Hdisj].
  - apply Hnodes.
Qed.

Lemma readiness_signals_witness :
  (NodeManager.ready (manager two_selections_then_demote) = true
   ↔ NodeManager.nodes (manager two_selections_then_demote) ≠ []) ∧
  ∀ n, (n ∈ NodeManager_iter (manager two_selections_then_demote) →
        node_ready two_selections_then_demote n = true ∧
        n ∉ NodeManager.offline_nodes (manager two_selections_then_demote)) ∧
       (n ∈ NodeManager.offline_nodes (manager two_selections_then_demote) →
        node_ready two_selections_then_demote n = false).
Proof.
  apply (readiness_signals two_selections_then_demote).
  do 2 apply reachable_run. constructor.
Defined.

(** ** Registration, promotion and demotion, step by step *)

(** X7: [add] creates a node that is new to both collections and appends it
    to [offline_nodes]; the node starts with its readiness signal clear and
    without sessions, and keeps the region set it was given unchecked.  The
    online collection, the routing table, the cursor, the readiness signal of
    the cluster, the hooks and the scheduled dispatches are untouched, and the
    objects that existed keep their state. *)
Theorem add_registers_offline (regions : Regions.t) (host : string)
    (rest_port : Z) (password : string) (ws_retry ws_port shard_count : Z)
    (w : World) :
  reachable w →
  let w' := add regions host rest_port password ws_retry ws_port shard_count w in
  let node := length (heap w) in
  (node ∉ NodeManager.nodes (manager w)) ∧
  (node ∉ NodeManager.offline_nodes (manager w)) ∧
  NodeManager.offline_nodes (manager w') = NodeManager.offline_nodes (manager w) ++ [node] ∧
  NodeManager.nodes (manager w') = NodeManager.nodes (manager w) ∧
  NodeManager.nodes_by_region (manager w') = NodeManager.nodes_by_region (manager w) ∧
  NodeManager._rr_pos (manager w') = NodeManager._rr_pos (manager w) ∧
  NodeManager.ready (manager w') = NodeManager.ready (manager w) ∧
  NodeManager._hooks (manager w') = NodeManager._hooks (manager w) ∧
  loop_tasks w' = loop_tasks w ∧
  node_ready w' node = false ∧
  node_players w' node = [] ∧
  node_regions w' node = Regions.__iter__ regions ∧
  (∀ n nd, heap w !! n = Some nd → heap w' !! n = Some nd).
Proof.
  intros Hw w' node. destruct (reachable_registry_wf w Hw) as [_ Hheap].
  assert (∀ n, n ∈ NodeManager.nodes (manager w) ++ NodeManager.offline_nodes (manager w)
               → n ≠ node) as Hfresh.
  { intros n Hn ->. specialize (Hheap _ Hn). unfold node in Hheap. lia. }
  split. { intros Hn. apply (Hfresh node); [|done]. apply elem_of_app. by left. }
  split. { intros Hn. apply (Hfresh node); [|done]. apply elem_of_app. by right. }
  do 7 (split; [done|]).
  unfold node_ready, node_players, node_regions, w', node. simpl.
  rewrite list_lookup_middle by done. simpl.
  do 3 (split; [done|]).
  intros n nd Hn. by apply lookup_app_l_Some.
Qed.

Lemma add_registers_offline_witness :
  let w' := add {| Regions.regions := ["brazil"] |} "localhost" 2333 "" 10 80 1
              two_nodes_online in
  (2 ∉ NodeManager.nodes (manager two_nodes_online)) ∧
  (2 ∉ NodeManager.offline_nodes (manager two_nodes_online)) ∧
  NodeManager.offline_nodes (manager w')
    = NodeManager.offline_nodes (manager two_nodes_online) ++ [2] ∧
  NodeManager.nodes (manager w') = NodeManager.nodes (manager two_nodes_online) ∧
  NodeManager.nodes_by_region (manager w')
    = NodeManager.nodes_by_region (manager two_nodes_online) ∧
  NodeManager._rr_pos (manager w') = NodeManager._rr_pos (manager two_nodes_online) ∧
  NodeManager.ready (manager w') = NodeManager.ready (manager two_nodes_online) ∧
  NodeManager._hooks (manager w') = NodeManager._hooks (manager two_nodes_online) ∧
  loop_tasks w' = loop_tasks two_nodes_online ∧
  node_ready w' 2 = false ∧
  node_players w' 2 = [] ∧
  node_regions w' 2 = ["brazil"] ∧
  (∀ n nd, heap two_nodes_online !! n = Some nd → heap w' !! n = Some nd).
Proof.
  apply (add_registers_offline {| Regions.regions := ["brazil"] |} "localhost"
           2333 "" 10 80 1 two_nodes_online).
  apply reachable_run. constructor.
Defined.

(** X8: promoting a node of [offline_nodes] moves it to the end of [nodes],
    sets its readiness signal and the signal of the cluster, points every
    region of its region set at it whatever node had the region before (the
    last node to come online wins), leaves the other entries, the cursor and
    the sessions alone, and schedules one [NodeReadyEvent] for the node. *)
Theorem on_node_ready_promotes (node : node_ref) (w : World) :
  reachable w →
  node ∈ NodeManager.offline_nodes (manager w) →
  let w' := on_node_ready node w in
  NodeManager.nodes (manager w') = NodeManager.nodes (manager w) ++ [node] ∧
  NodeManager.offline_nodes (manager w')
    = py_remove node (NodeManager.offline_nodes (manager w)) ∧
  (node ∉ NodeManager.offline_nodes (manager w')) ∧
  node_ready w' node = true ∧
  NodeManager.ready (manager w') = true ∧
  (∀ r, NodeManager.nodes_by_region (manager w') !! r =
          if decide (r ∈ node_regions w node) then Some node
          else NodeManager.nodes_by_region (manager w) !! r) ∧
  NodeManager._rr_pos (manager w') = NodeManager._rr_pos (manager w) ∧
  (∀ n, node_players w' n = node_players w n) ∧
  loop_tasks w' = loop_tasks w ++ [NodeReadyEvent node].
Proof.
  intros Hw Hin w'. unfold w'.
  destruct (reachable_registry_wf w Hw) as [Hnd Hheap].
  rewrite (on_node_ready_offline node w Hin). simpl.
  split; [done|]. split; [done|]. split.
  { apply NoDup_app in Hnd as (_ & _ & Hnd).
    by destruct (py_remove_NoDup node _ Hnd Hin). }
  split.
  { erewrite (node_ready_alter_ready w _ node node true) by reflexivity.
    rewrite decide_True; [done|]. split; [done|].
    apply Hheap, elem_of_app. by right. }
  split; [done|]. split; [intros r; apply route_regions_lookup|].
  split; [done|]. split; [|done].
  intros n. by apply (node_players_alter_ready w _ n node true).
Qed.

Lemma on_node_ready_promotes_witness :
  let w := three_nodes_second_demoted in
  let w' := on_node_ready 1 w in
  NodeManager.nodes (manager w') = NodeManager.nodes (manager w) ++ [1] ∧
  NodeManager.offline_nodes (manager w')
    = py_remove 1 (NodeManager.offline_nodes (manager w)) ∧
  (1 ∉ NodeManager.offline_nodes (manager w')) ∧
  node_ready w' 1 = true ∧
  NodeManager.ready (manager w') = true ∧
  (∀ r, NodeManager.nodes_by_region (manager w') !! r =
          if decide (r ∈ node_regions w 1) then Some 1
          else NodeManager.nodes_by_region (manager w) !! r) ∧
  NodeManager._rr_pos (manager w') = NodeManager._rr_pos (manager w) ∧
  (∀ n, node_players w' n = node_players w n) ∧
  loop_tasks w' = loop_tasks w ++ [NodeReadyEvent 1].
Proof.
  apply (on_node_ready_promotes 1 three_nodes_second_demoted).
  - do 2 apply reachable_run. constructor.
  - apply (bool_decide_unpack _). by vm_compute.
Defined.

(** X9: demoting the only online node empties [nodes], clears the readiness
    signal of the node and of the cluster and stops there: the routing table
    keeps all its entries, also those that lead to the node, and no
    [NodeDisabledEvent] is scheduled. *)
Theorem on_node_disabled_last_node (node : node_ref) (w : World) :
  reachable w →
  NodeManager.nodes (manager w) = [node] →
  let w' := on_node_disabled node w in
  NodeManager.nodes (manager w') = [] ∧
  NodeManager.offline_nodes (manager w')
    = NodeManager.offline_nodes (manager w) ++ [node] ∧
  node_ready w' node = false ∧
  NodeManager.ready (manager w') = false ∧
  NodeManager.nodes_by_region (manager w') = NodeManager.nodes_by_region (manager w) ∧
  NodeManager._rr_pos (manager w') = NodeManager._rr_pos (manager w) ∧
  loop_tasks w' = loop_tasks w.
Proof.
  intros Hw Hnodes w'. unfold w'.
  destruct (reachable_registry_wf w Hw) as [_ Hheap].
  assert (node ∈ NodeManager.nodes (manager w)) as Hin by (rewrite Hnodes; by left).
  rewrite (on_node_disabled_online node w Hin), Hnodes. simpl.
  rewrite decide_True by done. simpl.
  do 2 (split; [done|]). split; [|done].
  erewrite (node_ready_alter_ready w _ node node false) by reflexivity.
  rewrite decide_True; [done|]. split; [done|].
  apply Hheap, elem_of_app. by left.
Qed.

Lemma on_node_disabled_last_node_witness :
  let w := run [example_add ["japan"]; op_set_online 0] (init 0 true) in
  let w' := on_node_disabled 0 w in
  NodeManager.nodes (manager w') = [] ∧
  NodeManager.offline_nodes (manager w')
    = NodeManager.offline_nodes (manager w) ++ [0] ∧
  node_ready w' 0 = false ∧
  NodeManager.ready (manager w') = false ∧
  NodeManager.nodes_by_region (manager w') = NodeManager.nodes_by_region (manager w) ∧
  NodeManager._rr_pos (manager w') = NodeManager._rr_pos (manager w) ∧
  loop_tasks w' = loop_tasks w.
Proof.
  apply (on_node_disabled_last_node 0
           (run [example_add ["japan"]; op_set_online 0] (init 0 true))).
  - apply reachable_run. constructor.
  - by vm_compute.
Defined.

(** X10: demoting an online node while another node stays online removes it
    from [nodes], appends it to [offline_nodes], clears its readiness signal,
    keeps the signal of the cluster set and the cursor where it was, and
    schedules one [NodeDisabledEvent] for the node. *)
Theorem on_node_disabled_with_remaining (node : node_ref) (w : World) :
  reachable w →
  node ∈ NodeManager.nodes (manager w) →
  NodeManager.nodes (manager w) ≠ [node] →
  let w' := on_node_disabled node w in
  NodeManager.nodes (manager w') = py_remove node (NodeManager.nodes (manager w)) ∧
  NodeManager.nodes (manager w') ≠ [] ∧
  (node ∉ NodeManager.nodes (manager w')) ∧
  NodeManager.offline_nodes (manager w')
    = NodeManager.offline_nodes (manager w) ++ [node] ∧
  node_ready w' node = false ∧
  NodeManager.ready (manager w') = true ∧
  NodeManager._rr_pos (manager w') = NodeManager._rr_pos (manager w) ∧
  loop_tasks w' = loop_tasks w ++ [NodeDisabledEvent node].
Proof.
  intros Hw Hin Hother w'. unfold w'.
  destruct (reachable_registry_wf w Hw) as [Hnd Hheap].
  destruct (reachable_readiness_consistent w Hw) as [Hready _].
  apply NoDup_app in Hnd as (Hnd & _ & _).
  destruct (py_remove_NoDup node _ Hnd Hin) as [Hnotin _].
  pose proof (py_remove_Permutation node _ Hin) as Hperm.
  rewrite (on_node_disabled_online node w Hin).
  destruct (py_remove node (NodeManager.nodes (manager w))) as [|d rest] eqn:Hrem.
  { exfalso. apply Hother. by apply Permutation_singleton_r. }
  simpl. do 4 (split; [done|]). split.
  { erewrite (node_ready_alter_ready w _ node node false) by reflexivity.
    rewrite decide_True; [done|]. split; [done|].
    apply Hheap, elem_of_app. by left. }
  split; [|done]. apply Hready. intros Hnil. rewrite Hnil in Hin.
  by apply elem_of_nil in Hin.
Qed.

Lemma on_node_disabled_with_remaining_witness :
  let w := two_nodes_online in
  let w' := on_node_disabled 0 w in
  NodeManager.nodes (manager w') = py_remove 0 (NodeManager.nodes (manager w)) ∧
  NodeManager.nodes (manager w') ≠ [] ∧
  (0 ∉ NodeManager.nodes (manager w')) ∧
  NodeManager.offline_nodes (manager w')
    = NodeManager.offline_nodes (manager w) ++ [0] ∧
  node_ready w' 0 = false ∧
  NodeManager.ready (manager w') = true ∧
  NodeManager._rr_pos (manager w') = NodeManager._rr_pos (manager w) ∧
  loop_tasks w' = loop_tasks w ++ [NodeDisabledEvent 0].
Proof.
  apply (on_node_disabled_with_remaining 0 two_nodes_online).
  - apply reachable_run. constructor.
  - apply (bool_decide_unpack _). by vm_compute.
  - by vm_compute.
Defined.

(** ** Selection: outcomes of [get_rest] *)

Lemma py_getitem_Ok_elem {A : Type} (l : list A) (i : Z) (x : A) :
  py_getitem l i = Ok x → x ∈ l.
Proof.
  unfold py_getitem.
  set (j := if (i <? 0)%Z then (i + Z.of_nat (length l))%Z else i).
  destruct ((0 <=? j)%Z && (j <? Z.of_nat (length l))%Z); [|done].
  destruct (l !! Z.to_nat j) as [y|] eqn:Hy; [|done].
  intros [= <-]. by eapply list_elem_of_lookup_2.
Qed.

Lemma py_getitem_raises {A : Type} (l : list A) (i : Z) (e : exn) :
  py_getitem l i = Raise e → e = IndexError.
Proof.
  unfold py_getitem.
  set (j := if (i <? 0)%Z then (i + Z.of_nat (length l))%Z else i).
  destruct ((0 <=? j)%Z && (j <? Z.of_nat (length l))%Z); [|by intros [= <-]].
  destruct (l !! Z.to_nat j); [done|by intros [= <-]].
Qed.

Lemma get_rest_Ok_online (m m' : NodeManager.t) (r : option node_ref) :
  get_rest m = (Ok r, m') → ∃ n, r = Some n ∧ n ∈ NodeManager.nodes m.
Proof.
  unfold get_rest. destruct (NodeManager.nodes m) as [|n0 ns]; [done|].
  set (l := n0 :: ns).
  repeat match goal with
         | |- context [py_getitem l ?i] =>
             let H := fresh "Hget" in destruct (py_getitem l i) eqn:H
         | |- context [if ?b then _ else _] => destruct b eqn:?
         end; try done;
    intros [= <- _]; eexists; (split; [reflexivity|]);
    by eapply py_getitem_Ok_elem.
Qed.

Lemma get_rest_n_app (a b : nat) (m m1 m2 : NodeManager.t)
    (l1 l2 : list (option node_ref)) :
  get_rest_n a m = (Ok l1, m1) →
  get_rest_n b m1 = (Ok l2, m2) →
  get_rest_n (a + b) m = (Ok (l1 ++ l2), m2).
Proof.
  revert m l1. induction a as [|a IH]; intros m l1; simpl.
  - by intros [= <- <-].
  - destruct (get_rest m) as [[r|e] m0]; [|done].
    destruct (get_rest_n a m0) as [[l|e] m0'] eqn:Ha; [|done].
    intros [= <- <-] Hb. by rewrite (IH m0 l Ha Hb).
Qed.

(** X11: with round-robin disabled, a non-empty [nodes] and a default index
    of at least [-len(nodes)], every call of [get_rest] returns the same node,
    the one at the default index, or the first node when the index is
    [len(nodes)] or more, and the registry is left exactly as it was, however
    many calls are made. *)
Theorem get_rest_fixed_default_stable (m : NodeManager.t) (k : nat) :
  let len := Z.of_nat (length (NodeManager.nodes m)) in
  let d := NodeManager.default_node_index m in
  NodeManager.round_robin m = false →
  NodeManager.nodes m ≠ [] →
  (- len ≤ d)%Z →
  ∃ n, py_getitem (NodeManager.nodes m) (if (d <? len)%Z then d else 0%Z) = Ok n ∧
       get_rest_n k m = (Ok (replicate k (Some n)), m).
Proof.
  intros len d Hrr Hne Hdef.
  assert (∃ n, py_getitem (NodeManager.nodes m) (if (d <? len)%Z then d else 0%Z) = Ok n ∧
               get_rest m = (Ok (Some n), m)) as (n & Hn & Hget).
  { unfold get_rest. fold len d. rewrite Hrr.
    destruct (NodeManager.nodes m) as [|n0 ns] eqn:Hnodes; [done|].
    destruct (Z.ltb_spec d len) as [Hlt|Hge].
    - destruct (py_getitem_in_range (n0 :: ns) d) as (x & Hx & _);
        [by fold len|].
      rewrite Hx. by exists x.
    - exists n0. done. }
  exists n. split; [done|].
  induction k as [|k IH]; [done|]. simpl. by rewrite Hget, IH.
Qed.

Lemma get_rest_fixed_default_stable_witness :
  let m := NodeManager.set_rr_pos 0
             {| NodeManager.default_node_index := 5;
                NodeManager.round_robin := false;
                NodeManager._rr_pos := 0;
                NodeManager.nodes := [3; 4];
                NodeManager.offline_nodes := [];
                NodeManager.nodes_by_region := ∅;
                NodeManager._hooks := [];
                NodeManager.ready := true |} in
  ∃ n, py_getitem [3; 4] 0%Z = Ok n ∧
       get_rest_n 3 m = (Ok (replicate 3 (Some n)), m).
Proof.
  apply (get_rest_fixed_default_stable
           (NodeManager.set_rr_pos 0
             {| NodeManager.default_node_index := 5;
                NodeManager.round_robin := false;
                NodeManager._rr_pos := 0;
                NodeManager.nodes := [3; 4];
                NodeManager.offline_nodes := [];
                NodeManager.nodes_by_region := ∅;
                NodeManager._hooks := [];
                NodeManager.ready := true |}) 3); simpl; (done || lia).
Defined.

(** X12: under round-robin the selections come in rounds of [N + 1] calls
    for [N] online nodes: from cursor 0 (and a default index of at least
    [-N]) the calls return the nodes in the order of [nodes], then the last
    node a second time, and the registry is back in the state the round
    started from. *)
Theorem get_rest_round_robin_period (m : NodeManager.t) :
  let N := length (NodeManager.nodes m) in
  NodeManager.round_robin m = true →
  NodeManager._rr_pos m = 0%Z →
  NodeManager.nodes m ≠ [] →
  (- Z.of_nat N ≤ NodeManager.default_node_index m)%Z →
  get_rest_n (N + 1) m =
    (Ok ((Some <$> NodeManager.nodes m) ++ [last (NodeManager.nodes m)]), m).
Proof.
  intros N Hrr Hpos Hne Hdef.
  set (m1 := NodeManager.set_rr_pos (Z.of_nat N) m).
  assert (get_rest_n N m = (Ok (Some <$> NodeManager.nodes m), m1)) as H1.
  { rewrite (get_rest_n_round_robin N 0 m); try done.
    unfold N. by rewrite drop_0, firstn_all. }
  assert (0 < N)%nat as HN
    by (unfold N; destruct (NodeManager.nodes m); simpl; [done|lia]).
  assert (get_rest m1 = (Ok (last (NodeManager.nodes m)), m)) as H2.
  { destruct (get_rest_round_robin m1) as (n & Hn & ->); try done.
    { simpl. lia. }
    simpl in *. fold N in Hn |- *.
    replace (Z.to_nat (Z.min (Z.of_nat N) (Z.of_nat N - 1))) with (N - 1)%nat in Hn by lia.
    rewrite last_lookup.
    replace (Init.Nat.pred (length (NodeManager.nodes m))) with (N - 1)%nat
      by (unfold N; lia).
    rewrite Hn.
    destruct (Z.gtb_spec (Z.of_nat N + 1) (Z.of_nat N)) as [_|]; [|lia].
    f_equal. change (NodeManager.set_rr_pos 0 m = m).
    rewrite <- Hpos. apply set_rr_pos_id. }
  apply (get_rest_n_app N 1 m m1 m _ _ H1). simpl. by rewrite H2.
Qed.

Lemma get_rest_round_robin_period_witness :
  get_rest_n 3 (manager two_nodes_online)
  = (Ok [Some 0; Some 1; Some 1], manager two_nodes_online).
Proof.
  apply (get_rest_round_robin_period (manager two_nodes_online));
    vm_compute; congruence.
Defined.

(** X13: when the cursor stands at [len(nodes)] or beyond, as it can after
    a demotion, a round-robin selection reads the clamped position: it
    returns the last node of [nodes] and puts the cursor back to 0. *)
Theorem get_rest_cursor_past_end (m : NodeManager.t) :
  let len := Z.of_nat (length (NodeManager.nodes m)) in
  NodeManager.round_robin m = true →
  NodeManager.nodes m ≠ [] →
  (- len ≤ NodeManager.default_node_index m)%Z →
  (len ≤ NodeManager._rr_pos m)%Z →
  get_rest m = (Ok (last (NodeManager.nodes m)), NodeManager.set_rr_pos 0 m).
Proof.
  intros len Hrr Hne Hdef Hpos.
  assert (0 < len)%Z as Hlen
    by (unfold len; destruct (NodeManager.nodes m); simpl; [done|lia]).
  destruct (get_rest_round_robin m) as (n & Hn & ->); try done; [lia|].
  fold len in Hn |- *.
  replace (Z.to_nat (Z.min (NodeManager._rr_pos m) (len - 1)))
    with (Init.Nat.pred (length (NodeManager.nodes m))) in Hn by (unfold len in *; lia).
  rewrite last_lookup, Hn.
  destruct (Z.gtb_spec (NodeManager._rr_pos m + 1) len) as [_|]; [|lia]. done.
Qed.

Lemma get_rest_cursor_past_end_witness :
  get_rest (manager two_selections_then_demote)
  = (Ok (Some 0), NodeManager.set_rr_pos 0 (manager two_selections_then_demote)).
Proof.
  apply (get_rest_cursor_past_end (manager two_selections_then_demote));
    vm_compute; congruence.
Defined.

(** X14: in every reachable state a node that [get_rest] returns is in
    [nodes], is not in [offline_nodes] and has its readiness signal set;
    [get_rest] never returns [None]. *)
Theorem get_rest_returns_ready_online (w : World) (r : option node_ref)
    (m' : NodeManager.t) :
  reachable w →
  get_rest (manager w) = (Ok r, m') →
  ∃ n, r = Some n ∧
       n ∈ NodeManager.nodes (manager w) ∧
       (n ∉ NodeManager.offline_nodes (manager w)) ∧
       node_ready w n = true.
Proof.
  intros Hw Hget. destruct (get_rest_Ok_online _ _ _ Hget) as (n & -> & Hn).
  destruct (reachable_readiness_consistent w Hw) as [_ Hnodes].
  destruct (reachable_registry_wf w Hw) as [Hnd _].
  apply NoDup_app in Hnd as (_ & Hdisj & _).
  exists n. split; [done|]. split; [done|]. split; [by apply Hdisj|by apply Hnodes].
Qed.

Lemma get_rest_returns_ready_online_witness :
  ∃ n, Some 0 = Some n ∧
       n ∈ NodeManager.nodes (manager two_selections_then_demote) ∧
       (n ∉ NodeManager.offline_nodes (manager two_selections_then_demote)) ∧
       node_ready two_selections_then_demote n = true.
Proof.
  apply (get_rest_returns_ready_online two_selections_then_demote (Some 0)
           (NodeManager.set_rr_pos 0 (manager two_selections_then_demote))).
  - do 2 apply reachable_run. constructor.
  - by vm_compute.
Defined.

(** X15: in every reachable state [get_rest] raises in two cases only:
    [NoNodesAvailable] when [nodes] is empty, and [IndexError] when [nodes] is
    not empty and the default index is below [-len(nodes)]; a call that raises
    leaves the registry as it was. *)
Theorem get_rest_raises_iff (w : World) (e : exn) :
  reachable w →
  let m := manager w in
  let len := Z.of_nat (length (NodeManager.nodes m)) in
  ((get_rest m).1 = Raise e ↔
   (NodeManager.nodes m = [] ∧ e = NoNodesAvailable) ∨
   (NodeManager.nodes m ≠ [] ∧ (NodeManager.default_node_index m < - len)%Z ∧
    e = IndexError)) ∧
  ((get_rest m).1 = Raise e → (get_rest m).2 = m).
Proof.
  intros Hw m len. split; [split|].
  - intros Hraise.
    destruct (decide (NodeManager.nodes m = [])) as [Hnil|Hne].
    + left. split; [done|]. rewrite get_rest_empty in Hraise by done.
      simpl in Hraise. congruence.
    + right. split; [done|].
      destruct (Z.lt_ge_cases (NodeManager.default_node_index m) (- len))
        as [Hlt|Hge].
      * split; [done|]. rewrite get_rest_default_below in Hraise by done.
        simpl in Hraise. congruence.
      * exfalso. destruct (get_rest_returns_node w Hw Hne) as (n & m' & Hget & _);
          [unfold len, m in *; lia|].
        fold m in Hget. by rewrite Hget in Hraise.
  - intros [[Hnil ->]|(Hne & Hlt & ->)].
    + by rewrite get_rest_empty.
    + by rewrite get_rest_default_below.
  - unfold get_rest. destruct (NodeManager.nodes m) as [|n0 ns]; [done|].
    repeat match goal with
           | |- context [py_getitem ?l ?i] => destruct (py_getitem l i)
           | |- context [if ?b then _ else _] => destruct b eqn:?
           end; done.
Qed.

Lemma get_rest_raises_iff_witness :
  let m := manager one_node_default_minus_two in
  ((get_rest m).1 = Raise IndexError ↔
   (NodeManager.nodes m = [] ∧ IndexError = NoNodesAvailable) ∨
   (NodeManager.nodes m ≠ [] ∧
    (NodeManager.default_node_index m < - Z.of_nat (length (NodeManager.nodes m)))%Z ∧
    IndexError = IndexError)) ∧
  ((get_rest m).1 = Raise IndexError → (get_rest m).2 = m).
Proof.
  apply (get_rest_raises_iff one_node_default_minus_two IndexError).
  apply reachable_run. constructor.
Defined.

(** ** Selection by region: outcomes of [get_by_region] *)

(** X16: [get_by_region] raises only when the region of the guild has no
    routing entry and [nodes] is empty, and then it is [IndexError].  With a
    routing entry the session is looked up on the routed node, whether or not
    that node is in [nodes]; without one it is looked up on the first node of
    [nodes]. *)
Theorem get_by_region_outcomes (guild : Guild) (w : World) :
  let routed := NodeManager.nodes_by_region (manager w) !! region guild in
  (∀ e, (get_by_region guild w).1 = Raise e ↔
        routed = None ∧ NodeManager.nodes (manager w) = [] ∧ e = IndexError) ∧
  (∀ n, routed = Some n →
        get_by_region guild w
        = (Ok (players_get n (id guild) w).1, (players_get n (id guild) w).2)) ∧
  (∀ n ns, routed = None → NodeManager.nodes (manager w) = n :: ns →
        get_by_region guild w
        = (Ok (players_get n (id guild) w).1, (players_get n (id guild) w).2)).
Proof.
  intros routed. unfold get_by_region. fold routed. split; [|split].
  - intros e. destruct routed as [n|].
    + destruct (players_get n (id guild) w). simpl. split; [done|]. by intros [? _].
    + destruct (NodeManager.nodes (manager w)) as [|n ns].
      * rewrite py_getitem_empty. simpl. split; [by intros [= <-]|].
        by intros (_ & _ & ->).
      * rewrite (py_getitem_nonneg (n :: ns) 0 n) by done.
        destruct (players_get n (id guild) w). simpl.
        split; [done|]. by intros (_ & ? & _).
  - intros n ->. by destruct (players_get n (id guild) w).
  - intros n ns -> ->. rewrite (py_getitem_nonneg (n :: ns) 0 n) by done.
    by destruct (players_get n (id guild) w).
Qed.

Lemma get_by_region_outcomes_witness :
  (get_by_region {| id := 42; region := "sydney" |} two_nodes_online).1
    = Ok (Player.fresh 1) ∧
  (get_by_region {| id := 42; region := "brazil" |} two_nodes_online).1
    = Ok (Player.fresh 0) ∧
  ((get_by_region {| id := 42; region := "brazil" |} (init 0 true)).1
     = Raise IndexError).
Proof.
  destruct (get_by_region_outcomes {| id := 42; region := "sydney" |} two_nodes_online)
    as (_ & Hrouted & _).
  destruct (get_by_region_outcomes {| id := 42; region := "brazil" |} two_nodes_online)
    as (_ & _ & Hfirst).
  destruct (get_by_region_outcomes {| id := 42; region := "brazil" |} (init 0 true))
    as (Hraise & _ & _).
  split; [|split].
  - rewrite (Hrouted 1); by vm_compute.
  - rewrite (Hfirst 0 [1]); by vm_compute.
  - apply Hraise. by vm_compute.
Defined.

(** X17: once the only online node has been demoted, [get_by_region] for a
    region routed to that node still succeeds: it looks the session up on
    the demoted node, which is in [offline_nodes] with its readiness signal
    clear, while [get_rest] raises [NoNodesAvailable]. *)
Theorem get_by_region_serves_demoted_node (node : node_ref) (guild : Guild)
    (w : World) :
  reachable w →
  NodeManager.nodes (manager w) = [node] →
  NodeManager.nodes_by_region (manager w) !! region guild = Some node →
  let w' := on_node_disabled node w in
  get_by_region guild w'
    = (Ok (players_get node (id guild) w').1, (players_get node (id guild) w').2) ∧
  node ∈ NodeManager.offline_nodes (manager w') ∧
  node_ready w' node = false ∧
  get_rest (manager w') = (Raise NoNodesAvailable, manager w').
Proof.
  intros Hw Hnodes Hroute w'.
  destruct (reachable_registry_wf w Hw) as [_ Hheap].
  assert (node ∈ NodeManager.nodes (manager w)) as Hin by (rewrite Hnodes; by left).
  assert (w' = on_node_disabled node w) as Hw' by done.
  rewrite (on_node_disabled_online node w Hin), Hnodes in Hw'.
  simpl in Hw'. rewrite decide_True in Hw' by done.
  assert (NodeManager.nodes_by_region (manager w') !! region guild = Some node) as Hr'
    by (by rewrite Hw').
  split.
  { unfold get_by_region. rewrite Hr'.
    by destruct (players_get node (id guild) w'). }
  split; [rewrite Hw'; simpl; apply elem_of_app; right; by left|].
  split.
  { rewrite Hw'.
    erewrite (node_ready_alter_ready w _ node node false) by reflexivity.
    rewrite decide_True; [done|]. split; [done|].
    apply Hheap, elem_of_app. by left. }
  apply get_rest_empty. by rewrite Hw'.
Qed.

Lemma get_by_region_serves_demoted_node_witness :
  let w := run [example_add ["japan"]; op_set_online 0] (init 0 true) in
  let guild := {| id := 42; region := "japan" |} in
  let w' := on_node_disabled 0 w in
  get_by_region guild w'
    = (Ok (players_get 0 (id guild) w').1, (players_get 0 (id guild) w').2) ∧
  0 ∈ NodeManager.offline_nodes (manager w') ∧
  node_ready w' 0 = false ∧
  get_rest (manager w') = (Raise NoNodesAvailable, manager w').
Proof.
  apply (get_by_region_serves_demoted_node 0 {| id := 42; region := "japan" |}
           (run [example_add ["japan"]; op_set_online 0] (init 0 true))).
  - apply reachable_run. constructor.
  - by vm_compute.
  - by vm_compute.
Defined.

(** ** Failover of any number of sessions *)

Lemma failover_loop_other_nodes (outcome : list Call → Call → result unit)
    (self new_node n : node_ref) (gs : list Z) (w : World) :
  n ≠ self → n ≠ new_node →
  node_players (failover_loop outcome self new_node gs w).2 n = node_players w n.
Proof.
  intros Hs Hn.
  apply (failover_loop_preserves (λ w w', node_players w' n = node_players w n));
    [done|congruence|].
  clear gs w. intros g w.
  failover_player_cases outcome self g; cbn [snd];
    rewrite ?node_players_call;
    repeat (rewrite node_players_set_ne by done; rewrite ?node_players_call);
    done.
Qed.

Lemma failover_loop_migrates (outcome : list Call → Call → result unit)
    (self new_node : node_ref) (source : list (Z * Player.t)) (w : World) :
  self ≠ new_node →
  is_Some (heap w !! self) →
  is_Some (heap w !! new_node) →
  node_players w self = source →
  (∀ h c, c ∈ migration_trace new_node source → outcome h c = Ok tt) →
  ∃ w', failover_loop outcome self new_node (PyDict.keys source) w = (Ok tt, w') ∧
        node_players w' self = [] ∧
        node_players w' new_node
          = migrate_into new_node (node_players w new_node) source ∧
        calls w' = calls w ++ migration_trace new_node source ∧
        manager w' = manager w.
Proof.
  intros Hne. revert w.
  induction source as [|[g p] source IH]; intros w Hself Hnew Hsrc Hok.
  - exists w. unfold migration_trace. simpl. by rewrite app_nil_r.
  - cbn [PyDict.keys fmap list_fmap fst failover_loop].
    destruct (failover_player_migrates outcome self new_node g p source w)
      as (w1 & -> & Hs1 & Hn1 & Hc1 & Hm1 & Hh1); try done.
    { rewrite Hsrc. simpl. by rewrite decide_True. }
    { intros h c Hc. apply Hok. rewrite migration_trace_cons.
      apply elem_of_app. by left. }
    destruct (IH w1) as (w2 & Hloop & Hs2 & Hn2 & Hc2 & Hm2);
      [by apply Hh1|by apply Hh1|done| |].
    { intros h c Hc. apply Hok. rewrite migration_trace_cons.
      apply elem_of_app. by right. }
    exists w2. unfold PyDict.keys in Hloop. rewrite Hloop.
    split; [done|]. split; [done|]. split.
    { rewrite Hn2, Hn1. done. }
    split; [|by rewrite Hm2].
    rewrite Hc2, Hc1, migration_trace_cons. by rewrite <- app_assoc.
Qed.

Lemma migrate_into_lookup (new_node : node_ref) (source target : list (Z * Player.t))
    (g : Z) :
  NoDup (PyDict.keys source) →
  PyDict.get (migrate_into new_node target source) g =
    match PyDict.get source g with
    | Some p => Some (migrated new_node p)
    | None => PyDict.get target g
    end.
Proof.
  unfold migrate_into, PyDict.keys. revert target.
  induction source as [|[g0 p0] source IH]; intros target Hnd; [done|].
  simpl in *. apply NoDup_cons in Hnd as [Hg0 Hnd].
  rewrite IH by done.
  destruct (decide (g0 = g)) as [->|Hne].
  - assert (PyDict.get source g = None) as ->.
    { clear -Hg0. induction source as [|[g1 p1] source IH]; simpl in *; [done|].
      rewrite decide_False.
      - apply IH. intros Hin. apply Hg0. by right.
      - intros ->. apply Hg0. by left. }
    apply PyDict_get_update_eq.
  - destruct (PyDict.get source g); [done|]. by apply PyDict_get_update_ne.
Qed.

(** X18: when the only online node has been demoted, its failover
    procedure finds no node to fail over to: it returns at once, the sessions
    stay in the dictionary of the demoted node and no call is made on any
    session or on the voice connection. *)
Theorem manage_failover_without_online_node
    (outcome : list Call → Call → result unit) (node : node_ref) (w : World) :
  reachable w →
  NodeManager.nodes (manager w) = [node] →
  let w' := set_offline node w in
  manage_failover outcome node w' = (Ok tt, w') ∧
  node_players w' node = node_players w node ∧
  calls w' = calls w.
Proof.
  intros Hw Hnodes w'. unfold w', set_offline.
  assert (node ∈ NodeManager.nodes (manager w)) as Hin by (rewrite Hnodes; by left).
  rewrite (on_node_disabled_online node w Hin), Hnodes. simpl.
  rewrite decide_True by done. unfold manage_failover. simpl.
  split; [done|]. split; [|done].
  by eapply (node_players_alter_ready w _ node node false).
Qed.

Lemma manage_failover_without_online_node_witness :
  let w := run [example_add ["japan"]; op_set_online 0;
                op_get_by_region {| id := 1; region := "japan" |}] (init 0 true) in
  let w' := set_offline 0 w in
  manage_failover voice_bridge_down 0 w' = (Ok tt, w') ∧
  node_players w' 0 = node_players w 0 ∧
  calls w' = calls w.
Proof.
  apply (manage_failover_without_online_node voice_bridge_down 0
           (run [example_add ["japan"]; op_set_online 0;
                 op_get_by_region {| id := 1; region := "japan" |}]
              (init 0 true))).
  - apply reachable_run. constructor.
  - by vm_compute.
Defined.

(** X19: when a node other than the failing one heads [nodes] and none of
    the calls that the procedure makes raises, the failover procedure moves
    every session of the failing node: its dictionary ends empty; each of its
    sessions sits in the dictionary of the head node under the same key, with
    that node as its node and, if it was playing, with the captured track at
    the front of its queue; the sessions that the head node had under other
    keys are kept, those of all other nodes are untouched; the calls are made
    session by session in the order of the dictionary; the registry itself
    does not change. *)
Theorem manage_failover_migrates_all (outcome : list Call → Call → result unit)
    (self new_node : node_ref) (rest : list node_ref) (w : World) :
  NodeManager.nodes (manager w) = new_node :: rest →
  self ≠ new_node →
  is_Some (heap w !! self) →
  is_Some (heap w !! new_node) →
  NoDup (PyDict.keys (node_players w self)) →
  (∀ h c, c ∈ migration_trace new_node (node_players w self) →
          outcome h c = Ok tt) →
  ∃ w', manage_failover outcome self w = (Ok tt, w') ∧
        node_players w' self = [] ∧
        (∀ g, PyDict.get (node_players w' new_node) g =
                match PyDict.get (node_players w self) g with
                | Some p => Some (migrated new_node p)
                | None => PyDict.get (node_players w new_node) g
                end) ∧
        (∀ n, n ≠ self → n ≠ new_node → node_players w' n = node_players w n) ∧
        calls w' = calls w ++ migration_trace new_node (node_players w self) ∧
        manager w' = manager w.
Proof.
  intros Hnodes Hne Hself Hnew Hnd Hok. unfold manage_failover. rewrite Hnodes.
  destruct (failover_loop_migrates outcome self new_node (node_players w self) w)
    as (w' & Hloop & Hs & Hn & Hc & Hm); try done.
  exists w'. split; [done|]. split; [done|]. split.
  { intros g. rewrite Hn. by apply migrate_into_lookup. }
  split; [|done].
  intros n Hn1 Hn2. replace w' with (failover_loop outcome self new_node
    (PyDict.keys (node_players w self)) w).2 by (by rewrite Hloop).
  by apply failover_loop_other_nodes.
Qed.

Lemma manage_failover_migrates_all_witness :
  let w := set_offline 0 failover_example in
  ∃ w', manage_failover all_return 0 w = (Ok tt, w') ∧
        node_players w' 0 = [] ∧
        (∀ g, PyDict.get (node_players w' 1) g =
                match PyDict.get (node_players w 0) g with
                | Some p => Some (migrated 1 p)
                | None => PyDict.get (node_players w 1) g
                end) ∧
        (∀ n, n ≠ 0 → n ≠ 1 → node_players w' n = node_players w n) ∧
        calls w' = calls w ++ migration_trace 1 (node_players w 0) ∧
        manager w' = manager w.
Proof.
  apply (manage_failover_migrates_all all_return 0 1 []
           (set_offline 0 failover_example)).
  - by vm_compute.
  - lia.
  - eexists. by vm_compute.
  - eexists. by vm_compute.
  - apply (bool_decide_unpack _). by vm_compute.
  - done.
Defined.

(** ** Hooks *)

Lemma py_remove_app_last `{EqDecision A} (x : A) (l : list A) :
  x ∉ l → py_remove x (l ++ [x]) = l.
Proof.
  induction l as [|y l IH]; simpl; intros Hx.
  - by rewrite decide_True.
  - rewrite decide_False.
    + rewrite IH; [done|]. intros Hin. apply Hx. by right.
    + intros ->. apply Hx. by left.
Qed.

Lemma py_remove_absent `{EqDecision A} (x : A) (l : list A) :
  x ∉ l → py_remove x l = l.
Proof.
  induction l as [|y l IH]; simpl; intros Hx; [done|].
  rewrite decide_False.
  - rewrite IH; [done|]. intros Hin. apply Hx. by right.
  - intros ->. apply Hx. by left.
Qed.

(** X20: registering a hook that is already registered, and unregistering
    a hook that is not, change nothing; a registered hook is in the list, at
    its end when it is new; unregistering a hook right after registering it
    for the first time gives back the state from before. *)
Theorem register_unregister_node_hook (func : hook_ref) (w : World) :
  (func ∈ NodeManager._hooks (manager w) → register_node_hook func w = w) ∧
  (func ∉ NodeManager._hooks (manager w) → unregister_node_hook func w = w) ∧
  (func ∉ NodeManager._hooks (manager w) →
   NodeManager._hooks (manager (register_node_hook func w))
     = NodeManager._hooks (manager w) ++ [func]) ∧
  func ∈ NodeManager._hooks (manager (register_node_hook func w)) ∧
  (func ∉ NodeManager._hooks (manager w) →
   unregister_node_hook func (register_node_hook func w) = w).
Proof.
  unfold register_node_hook, unregister_node_hook.
  split; [|split; [|split; [|split]]].
  - intros Hin. rewrite bool_decide_eq_false_2; [done|]. by intros ?.
  - intros Hnin. by rewrite bool_decide_eq_false_2.
  - intros Hnin. by rewrite bool_decide_eq_true_2.
  - case_bool_decide as Hd; simpl.
    + apply elem_of_app. right. by left.
    + exact Hd.
  - intros Hnin. rewrite (bool_decide_eq_true_2 _ Hnin). simpl.
    rewrite bool_decide_eq_true_2 by (apply elem_of_app; right; by left).
    unfold update_manager, set_manager, NodeManager.set_hooks. simpl.
    rewrite py_remove_app_last by done. by destruct w as [[] ? ? ?].
Qed.

Lemma register_unregister_node_hook_witness :
  let w := register_node_hook 3 two_nodes_online in
  register_node_hook 3 w = w ∧
  unregister_node_hook 4 w = w ∧
  NodeManager._hooks (manager (register_node_hook 4 w)) = [3; 4] ∧
  unregister_node_hook 4 (register_node_hook 4 w) = w.
Proof.
  pose proof (register_unregister_node_hook 3 (register_node_hook 3 two_nodes_online))
    as (H1 & _).
  pose proof (register_unregister_node_hook 4 (register_node_hook 3 two_nodes_online))
    as (_ & H2 & H3 & _ & H5).
  assert (4 ∉ NodeManager._hooks (manager (register_node_hook 3 two_nodes_online)))
    as Hnin by (apply (bool_decide_unpack _); by vm_compute).
  split; [apply H1; apply (bool_decide_unpack _); by vm_compute|].
  split; [by apply H2|]. split; [by apply H3|by apply H5].
Defined.

Lemma step_hooks (o : op) (w : World) :
  NodeManager._hooks (manager (step o w)) =
    match o with
    | op_register_node_hook func =>
        if bool_decide (func ∉ NodeManager._hooks (manager w))
        then NodeManager._hooks (manager w) ++ [func]
        else NodeManager._hooks (manager w)
    | op_unregister_node_hook func => py_remove func (NodeManager._hooks (manager w))
    | _ => NodeManager._hooks (manager w)
    end.
Proof.
  destruct o as [? ? ? ? ? ? ?|node|node| |guild|func|func|node]; simpl.
  - done.
  - unfold set_online.
    destruct (decide (node ∈ NodeManager.offline_nodes (manager w))) as [Hin|Hnin].
    + by rewrite (on_node_ready_offline node w Hin).
    + by rewrite on_node_ready_absent.
  - unfold set_offline.
    destruct (decide (node ∈ NodeManager.nodes (manager w))) as [Hin|Hnin].
    + rewrite (on_node_disabled_online node w Hin). by destruct (py_remove node _).
    + by rewrite on_node_disabled_absent.
  - unfold get_rest. destruct (NodeManager.nodes (manager w)) as [|n0 ns]; [done|].
    repeat match goal with
           | |- context [py_getitem ?l ?i] => destruct (py_getitem l i)
           | |- context [if ?b then _ else _] => destruct b eqn:?
           end; done.
  - by rewrite get_by_region_manager.
  - unfold register_node_hook. by case_bool_decide.
  - unfold unregister_node_hook. case_bool_decide as Hin; simpl; [done|].
    by rewrite py_remove_absent.
  - by rewrite manage_failover_manager.
Qed.

Lemma reachable_hooks_NoDup (w : World) :
  reachable w → NoDup (NodeManager._hooks (manager w)).
Proof.
  induction 1 as [d rr|o w _ IH]; [constructor|].
  rewrite step_hooks. destruct o; try done.
  - case_bool_decide as Hnin; [|done].
    apply NoDup_app. split; [done|]. split; [|apply NoDup_singleton].
    by intros x Hx ->%list_elem_of_singleton.
  - destruct (decide (func ∈ NodeManager._hooks (manager w))) as [Hin|Hnin].
    + by destruct (py_remove_NoDup func _ IH Hin).
    + by rewrite py_remove_absent.
Qed.

(** X21: in every reachable state no hook is registered twice and a hook
    that has just been unregistered is gone from the list.  When the hooks do
    not register or unregister hooks while they are called, raise nothing but
    instances of [Exception] and have a [__name__] each, one dispatch calls
    every registered hook exactly once, in the order of registration, and no
    other hook, and returns normally. *)
Theorem dispatch_calls_each_hook_once {Env : Type}
    (hook_name : hook_ref → result string) (iscoroutinefunction : hook_ref → bool)
    (hook_call : hook_ref → NodeEvent → Env * list hook_ref
                 → result unit * (Env * list hook_ref))
    (w : World) (event : NodeEvent) (env : Env) (log : list string) :
  reachable w →
  keeps_hooks hook_call →
  raises_Exception_only hook_call →
  (∀ hook, hook ∈ NodeManager._hooks (manager w) → ∃ name, hook_name hook = Ok name) →
  let hooks := NodeManager._hooks (manager w) in
  NoDup hooks ∧
  (∀ func, func ∉ NodeManager._hooks (manager (unregister_node_hook func w))) ∧
  ∃ env' log',
    _dispatch_node_event hook_name iscoroutinefunction (recorded hook_call)
      (S (length hooks)) (manager w) event (env, []) log
    = Some (Ok tt, (((env', (λ hook, (hook, event)) <$> hooks), hooks), log')) ∧
    NoDup ((λ hook, (hook, event)) <$> hooks).
Proof.
  intros Hw Hkeep Hexc Hnames hooks.
  pose proof (reachable_hooks_NoDup w Hw) as Hnd.
  fold hooks in Hnd. split; [done|]. split.
  { intros func.
    pose proof (step_hooks (op_unregister_node_hook func) w) as Hstep.
    simpl in Hstep. rewrite Hstep.
    destruct (decide (func ∈ NodeManager._hooks (manager w))) as [Hin|Hnin].
    - by destruct (py_remove_NoDup func _ Hnd Hin).
    - by rewrite py_remove_absent. }
  unfold _dispatch_node_event. fold hooks.
  pose proof (dispatch_loop_runs_all hook_name iscoroutinefunction
                (recorded hook_call) [] hooks event (env, []) log
                (recorded_keeps_hooks hook_call Hkeep)
                (recorded_raises_Exception_only hook_call Hexc) Hnames) as Hrun.
  rewrite !app_nil_l in Hrun. change (length (@nil hook_ref)) with 0 in Hrun.
  rewrite Hrun, hooks_effect_recorded. simpl.
  eexists _, _. split; [reflexivity|].
  apply NoDup_fmap_2; [|done]. by intros h1 h2 [= ->].
Qed.

Lemma dispatch_calls_each_hook_once_witness :
  let w := run [op_register_node_hook 3; op_register_node_hook 1;
                op_register_node_hook 3] (init 0 true) in
  let hooks := NodeManager._hooks (manager w) in
  NoDup hooks ∧
  (∀ func, func ∉ NodeManager._hooks (manager (unregister_node_hook func w))) ∧
  ∃ env' log',
    _dispatch_node_event named_hook_name (λ _, false) (recorded named_hook_call)
      (S (length hooks)) (manager w) (NodeReadyEvent 5) (0, []) []
    = Some (Ok tt,
            (((env', (λ hook, (hook, NodeReadyEvent 5)) <$> hooks), hooks), log')) ∧
    NoDup ((λ hook, (hook, NodeReadyEvent 5)) <$> hooks).
Proof.
  apply (dispatch_calls_each_hook_once named_hook_name (λ _, false) named_hook_call
           (run [op_register_node_hook 3; op_register_node_hook 1;
                 op_register_node_hook 3] (init 0 true))
           (NodeReadyEvent 5) 0 []).
  - apply reachable_run. constructor.
  - intros hook event env hooks. unfold named_hook_call. by case_decide.
  - intros hook event st e. unfold named_hook_call.
    case_decide; simpl; [done|]. by intros [= <-].
  - intros hook _. unfold named_hook_name. case_decide; by eexists.
Defined.

(** ** The routing table never shrinks *)

(** X22: no operation of the registry removes a routing entry: a region
    that has an entry keeps one, whatever is done next. *)
Theorem routing_entry_never_removed (o : op) (w : World) (r : string) :
  is_Some (NodeManager.nodes_by_region (manager w) !! r) →
  is_Some (NodeManager.nodes_by_region (manager (step o w)) !! r).
Proof.
  intros Hr. destruct o as [? ? ? ? ? ? ?|node|node| | | | |];
    try (match goal with
         | |- context [step ?o _] =>
             destruct (step_same_registry o w I) as (_ & _ & -> & _)
         end; done).
  - done.
  - simpl. unfold set_online.
    destruct (decide (node ∈ NodeManager.offline_nodes (manager w))) as [Hin|Hnin].
    + rewrite (on_node_ready_offline node w Hin). simpl.
      rewrite route_regions_lookup. by case_decide.
    + by rewrite on_node_ready_absent.
  - simpl. unfold set_offline.
    destruct (decide (node ∈ NodeManager.nodes (manager w))) as [Hin|Hnin].
    + rewrite (on_node_disabled_online node w Hin).
      destruct (py_remove node _); simpl; [done|].
      rewrite route_regions_lookup. by case_decide.
    + by rewrite on_node_disabled_absent.
  - simpl. by destruct (get_rest_frame (manager w)) as (_ & _ & -> & _).
Qed.

Lemma routing_entry_never_removed_witness :
  is_Some (NodeManager.nodes_by_region
             (manager (step (op_set_offline 0) two_nodes_online)) !! "japan").
Proof.
  apply (routing_entry_never_removed (op_set_offline 0) two_nodes_online "japan").
  eexists. by vm_compute.
Defined.

(** ** Failover of a node that is still online *)

Lemma PyDict_update_fresh {V : Type} (d : list (Z * V)) (g : Z) (v : V) :
  g ∉ PyDict.keys d → PyDict.update d g v = d ++ [(g, v)].
Proof.
  unfold PyDict.keys. induction d as [|[g0 v0] d IH]; simpl; intros Hg; [done|].
  rewrite decide_False.
  - rewrite IH; [done|]. intros Hin. apply Hg. by right.
  - intros ->. apply Hg. by left.
Qed.

Lemma PyDict_update_last {V : Type} (d : list (Z * V)) (g : Z) (v v' : V) :
  g ∉ PyDict.keys d → PyDict.update (d ++ [(g, v)]) g v' = d ++ [(g, v')].
Proof.
  unfold PyDict.keys. induction d as [|[g0 v0] d IH]; simpl; intros Hg.
  - by rewrite decide_True.
  - rewrite decide_False.
    + rewrite IH; [done|]. intros Hin. apply Hg. by right.
    + intros ->. apply Hg. by left.
Qed.

(** One round of the loop when the replacement node is the failing node
    itself and the calls of the round return: the session leaves the front of
    the dictionary and comes back at its end. *)
Lemma failover_player_onto_itself (outcome : list Call → Call → result unit)
    (self : node_ref) (g : Z) (p : Player.t)
    (d : list (Z * Player.t)) (w : World) :
  is_Some (heap w !! self) →
  node_players w self = (g, p) :: d →
  g ∉ PyDict.keys d →
  (∀ h c, c ∈ migration_calls self g p → outcome h c = Ok tt) →
  ∃ w', failover_player outcome self self g w = (Ok tt, w') ∧
        node_players w' self = d ++ [(g, migrated self p)] ∧
        calls w' = calls w ++ migration_calls self g p ∧
        manager w' = manager w ∧
        is_Some (heap w' !! self).
Proof.
  intros Hself Hps Hg Hok. unfold failover_player, invoke.
  rewrite Hps. simpl PyDict.pop.
  rewrite decide_True by done.
  unfold migration_calls, migrated in *.
  change (Player.is_playing (Player.set_node self p)) with (Player.is_playing p).
  change (Player.previous (Player.set_node self p)) with (Player.previous p).
  change (Player._prev_position (Player.set_node self p))
    with (Player._prev_position p).
  change (Player.channel_id (Player.set_node self p)) with (Player.channel_id p).
  set (w1 := set_node_players self d w).
  assert (is_Some (heap w1 !! self)) as Hself1
    by (by apply heap_set_node_players_is_Some).
  assert (node_players w1 self = d) as Hps1 by (by apply node_players_set_eq).
  set (p' := Player.set_node self p) in *.
  set (w2 := set_node_players self (PyDict.update (node_players w1 self) g p') w1).
  assert (is_Some (heap w2 !! self)) as Hself2
    by (by apply heap_set_node_players_is_Some).
  assert (node_players w2 self = d ++ [(g, p')]) as Hps2.
  { unfold w2. rewrite node_players_set_eq by done.
    rewrite Hps1. by apply PyDict_update_fresh. }
  rewrite (Hok _ (_get_websocket g)) by among_calls.
  rewrite (Hok _ (voice_state g None)) by among_calls.
  destruct (Player.is_playing p).
  - rewrite (Hok _ (connect p' (Player.channel_id p))) by among_calls.
    rewrite (Hok _ (play _)) by among_calls.
    rewrite (Hok _ (seek _ _)) by among_calls.
    eexists; (split; [reflexivity|]).
    rewrite !node_players_call.
    split; [|split; [|split]].
    + rewrite node_players_set_eq by (unfold call; simpl; exact Hself2).
      rewrite Hps2. by apply PyDict_update_last.
    + simpl. rewrite <- !app_assoc. done.
    + done.
    + unfold call. apply heap_set_node_players_is_Some. exact Hself2.
  - eexists; (split; [reflexivity|]).
    rewrite !node_players_call. repeat split; try done.
    simpl. by rewrite <- !app_assoc.
Qed.

Lemma failover_loop_onto_itself (outcome : list Call → Call → result unit)
    (self : node_ref) (source moved : list (Z * Player.t)) (w : World) :
  is_Some (heap w !! self) →
  node_players w self = source ++ moved →
  NoDup (PyDict.keys (source ++ moved)) →
  (∀ h c, c ∈ migration_trace self source → outcome h c = Ok tt) →
  ∃ w', failover_loop outcome self self (PyDict.keys source) w = (Ok tt, w') ∧
        node_players w' self
          = moved ++ ((λ gp, (gp.1, migrated self gp.2)) <$> source) ∧
        calls w' = calls w ++ migration_trace self source ∧
        manager w' = manager w.
Proof.
  revert moved w.
  induction source as [|[g p] source IH]; intros moved w Hself Hps Hnd Hok.
  - exists w. unfold migration_trace. simpl. by rewrite !app_nil_r.
  - cbn [PyDict.keys fmap list_fmap fst failover_loop].
    unfold PyDict.keys in Hnd. simpl in Hnd. apply NoDup_cons in Hnd as [Hg Hnd].
    destruct (failover_player_onto_itself outcome self g p (source ++ moved) w)
      as (w1 & -> & Hps1 & Hc1 & Hm1 & Hself1); try done.
    { intros h c Hc. apply Hok. rewrite migration_trace_cons.
      apply elem_of_app. by left. }
    destruct (IH (moved ++ [(g, migrated self p)]) w1)
      as (w2 & Hloop & Hps2 & Hc2 & Hm2); [done|by rewrite Hps1, app_assoc|..].
    { unfold PyDict.keys. rewrite app_assoc, fmap_app. simpl.
      apply NoDup_app. split; [done|]. split; [|apply NoDup_singleton].
      by intros x Hx ->%list_elem_of_singleton. }
    { intros h c Hc. apply Hok. rewrite migration_trace_cons.
      apply elem_of_app. by right. }
    exists w2. unfold PyDict.keys in Hloop. rewrite Hloop.
    split; [done|]. split.
    { rewrite Hps2. simpl. by rewrite <- app_assoc. }
    split; [|by rewrite Hm2].
    rewrite Hc2, Hc1, migration_trace_cons. by rewrite <- app_assoc.
Qed.

(** X23: when the failover procedure runs on the node that heads [nodes]
    (a node that was not demoted) and none of the calls that it makes raises,
    the node fails over to itself: its sessions stay in its dictionary, in
    the same order, yet every one of them has its gateway connection looked
    up and its voice connection torn down and, if it was playing, is
    connected again, gets the captured track inserted at the front of its
    queue and is played and seeked again. *)
Theorem manage_failover_onto_itself (outcome : list Call → Call → result unit)
    (self : node_ref) (rest : list node_ref) (w : World) :
  NodeManager.nodes (manager w) = self :: rest →
  is_Some (heap w !! self) →
  NoDup (PyDict.keys (node_players w self)) →
  (∀ h c, c ∈ migration_trace self (node_players w self) → outcome h c = Ok tt) →
  ∃ w', manage_failover outcome self w = (Ok tt, w') ∧
        node_players w' self
          = (λ gp, (gp.1, migrated self gp.2)) <$> node_players w self ∧
        calls w' = calls w ++ migration_trace self (node_players w self) ∧
        manager w' = manager w.
Proof.
  intros Hnodes Hself Hnd Hok. unfold manage_failover. rewrite Hnodes.
  destruct (failover_loop_onto_itself outcome self (node_players w self) [] w)
    as (w' & Hloop & Hps & Hc & Hm); [done|by rewrite app_nil_r
                                       |by rewrite app_nil_r|done|].
  exists w'. by repeat split.
Qed.

Lemma manage_failover_onto_itself_witness :
  ∃ w', manage_failover all_return 0 failover_example = (Ok tt, w') ∧
        node_players w' 0
          = (λ gp, (gp.1, migrated 0 gp.2)) <$> node_players failover_example 0 ∧
        calls w' = calls failover_example
                   ++ migration_trace 0 (node_players failover_example 0) ∧
        manager w' = manager failover_example.
Proof.
  apply (manage_failover_onto_itself all_return 0 [1] failover_example).
  - by vm_compute.
  - eexists. by vm_compute.
  - apply (bool_decide_unpack _). by vm_compute.
  - done.
Defined.

(** ** What the registry operations never touch *)

Lemma node_players_app (w : World) (nd : LavalinkNode.t) (n : node_ref) :
  LavalinkNode._players nd = [] →
  node_players (set_heap (heap w ++ [nd]) w) n = node_players w n.
Proof.
  intros Hnd. unfold node_players. simpl.
  destruct (decide (n < length (heap w))%nat) as [Hlt|Hge].
  - by rewrite lookup_app_l.
  - rewrite (proj2 (lookup_ge_None (heap w) n)) by lia.
    destruct (decide (n = length (heap w))) as [->|Hne].
    + by rewrite list_lookup_middle.
    + rewrite lookup_ge_None_2; [done|]. rewrite length_app. simpl. lia.
Qed.

(** X24: registering, promoting and demoting nodes, selecting with
    [get_rest] and managing hooks never move, create or drop a session and
    never call a session or the voice connection: the sessions of every node
    are what they were.  In particular a demotion alone leaves the sessions
    of the demoted node where they are. *)
Theorem registry_operations_keep_sessions (o : op) (w : World) (n : node_ref) :
  match o with
  | op_get_by_region _ | op_manage_failover _ _ => False
  | _ => True
  end →
  node_players (step o w) n = node_players w n ∧
  calls (step o w) = calls w.
Proof.
  destruct o as [? ? ? ? ? ? ?|node|node| |guild|func|func|node]; intros []; simpl.
  - split; [|done]. unfold add, update_manager, set_manager. simpl.
    by apply (node_players_app w).
  - unfold set_online.
    destruct (decide (node ∈ NodeManager.offline_nodes (manager w))) as [Hin|Hnin].
    + rewrite (on_node_ready_offline node w Hin). split; [|done].
      by apply (node_players_alter_ready w _ n node true).
    + by rewrite on_node_ready_absent.
  - unfold set_offline.
    destruct (decide (node ∈ NodeManager.nodes (manager w))) as [Hin|Hnin].
    + rewrite (on_node_disabled_online node w Hin).
      destruct (py_remove node _); (split; [|done]);
        by apply (node_players_alter_ready w _ n node false).
    + by rewrite on_node_disabled_absent.
  - done.
  - unfold register_node_hook. by case_bool_decide.
  - unfold unregister_node_hook. by case_bool_decide.
Qed.

Lemma registry_operations_keep_sessions_witness :
  node_players (step (op_set_offline 0) failover_example) 0
    = node_players failover_example 0 ∧
  calls (step (op_set_offline 0) failover_example) = calls failover_example.
Proof.
  apply (registry_operations_keep_sessions (op_set_offline 0) failover_example 0).
  exact I.
Defined.

Lemma step_configuration (o : op) (w : World) :
  NodeManager.default_node_index (manager (step o w))
    = NodeManager.default_node_index (manager w) ∧
  NodeManager.round_robin (manager (step o w))
    = NodeManager.round_robin (manager w) ∧
  (NodeManager._rr_pos (manager (step o w)) = NodeManager._rr_pos (manager w) ∨
   NodeManager.round_robin (manager w) = true).
Proof.
  destruct o as [? ? ? ? ? ? ?|node|node| |guild|func|func|node]; simpl.
  - by repeat split; [..|left].
  - unfold set_online.
    destruct (decide (node ∈ NodeManager.offline_nodes (manager w))) as [Hin|Hnin].
    + rewrite (on_node_ready_offline node w Hin). by repeat split; [..|left].
    + rewrite on_node_ready_absent by done. by repeat split; [..|left].
  - unfold set_offline.
    destruct (decide (node ∈ NodeManager.nodes (manager w))) as [Hin|Hnin].
    + rewrite (on_node_disabled_online node w Hin).
      destruct (py_remove node _); by repeat split; [..|left].
    + rewrite on_node_disabled_absent by done. by repeat split; [..|left].
  - destruct (get_rest_frame (manager w)) as (_ & _ & _ & -> & ->).
    split; [done|]. split; [done|].
    destruct (get_rest_cursor (manager w)) as [->|[-> _]]; auto.
  - rewrite get_by_region_manager. by repeat split; [..|left].
  - unfold register_node_hook. case_bool_decide; by repeat split; [..|left].
  - unfold unregister_node_hook. case_bool_decide; by repeat split; [..|left].
  - rewrite manage_failover_manager. by repeat split; [..|left].
Qed.

(** X25: the configuration given to the constructor is never changed by
    any operation: after any run the default index and the round-robin flag
    are the ones the registry was created with; and when round-robin is
    disabled the cursor stays at 0 for ever. *)
Theorem configuration_is_fixed (ops : list op) (default_node : Z)
    (round_robin : bool) :
  let m := manager (run ops (init default_node round_robin)) in
  NodeManager.default_node_index m = default_node ∧
  NodeManager.round_robin m = round_robin ∧
  (round_robin = false → NodeManager._rr_pos m = 0%Z).
Proof.
  assert (∀ w, NodeManager.default_node_index (manager w) = default_node →
               NodeManager.round_robin (manager w) = round_robin →
               (round_robin = false → NodeManager._rr_pos (manager w) = 0%Z) →
               let m := manager (run ops w) in
               NodeManager.default_node_index m = default_node ∧
               NodeManager.round_robin m = round_robin ∧
               (round_robin = false → NodeManager._rr_pos m = 0%Z)) as Hgen.
  { induction ops as [|o ops IH]; intros w Hd Hr Hc; [done|].
    simpl. destruct (step_configuration o w) as (Hd' & Hr' & Hc').
    apply IH.
    - by rewrite Hd'.
    - by rewrite Hr'.
    - intros Hfalse. destruct Hc' as [->|Htrue]; [by apply Hc|congruence]. }
  by apply Hgen.
Qed.

Lemma configuration_is_fixed_witness :
  let m := manager (run [example_add ["japan"]; op_set_online 0; op_get_rest;
                         op_get_rest; op_set_offline 0] (init 7 false)) in
  NodeManager.default_node_index m = 7%Z ∧
  NodeManager.round_robin m = false ∧
  NodeManager._rr_pos m = 0%Z.
Proof.
  destruct (configuration_is_fixed
              [example_add ["japan"]; op_set_online 0; op_get_rest;
               op_get_rest; op_set_offline 0] 7 false) as (Hd & Hr & Hc).
  split; [exact Hd|]. split; [exact Hr|]. by apply Hc.
Defined.

(** ** Failover that is left by an exception *)

Lemma heap_call_is_Some (c : Call) (w : World) (n : node_ref) :
  is_Some (heap (call c w) !! n) ↔ is_Some (heap w !! n).
Proof. done. Qed.





